(** * covid-19-map: the webpack configuration function

    A shallow embedding of [webpack.config.js], the function
    [(env, argv) => config] that the repository exports, together with the
    small part of JavaScript it relies on (property access on possibly
    undefined values, strict equality with a string literal, [console.log]
    and [JSON.stringify]). *)

From Stdlib Require Import String Ascii List Bool Arith Lia.
From stdpp Require Import base option list strings gmap.

Open Scope string_scope.
Import ListNotations.

#[local] Set Warnings "-clear-no-such-hyp".

(** ** JavaScript values *)

Module Js.

(** The values the function can meet in [env] and [argv].  An object is
    the list of its own enumerable properties in the order in which
    JavaScript enumerates them (keys that are array indices first, in
    ascending order, then the other keys in insertion order);
    [JSON.stringify] walks them in that order.  Numbers are left out: the function only compares against
    string literals and serialises [NODE_ENV]. *)
#[warnings="-register-all"]
Inductive JsValue : Type :=
| JUndefined
| JNull
| JBool (b : bool)
| JString (s : string)
| JObject (props : list (string * JsValue)).

(** What a call can throw. [CannotReadProperty k base] is the [TypeError]
    raised by [base.k] when [base] is [undefined] or [null]. *)
Inductive JsError : Type :=
| CannotReadProperty (key : string) (base : JsValue).

(** The console is the list of lines logged so far, oldest first. *)
Definition Console := list string.

Inductive Outcome (A : Type) : Type :=
| Returned (a : A) (out : Console)
| Threw (e : JsError) (out : Console).
Arguments Returned {A} a out.
Arguments Threw {A} e out.

(** Computations that may log and may throw. *)
Definition Eff (A : Type) : Type := Console -> Outcome A.

Definition ret {A} (a : A) : Eff A := fun out => Returned a out.

Definition bind {A B} (m : Eff A) (k : A -> Eff B) : Eff B :=
  fun out =>
    match m out with
    | Returned a out' => k a out'
    | Threw e out' => Threw e out'
    end.

Definition throw {A} (e : JsError) : Eff A := fun out => Threw e out.

Definition console_log (line : string) : Eff unit :=
  fun out => Returned tt (out ++ [line])%list.

Definition run {A} (m : Eff A) : Outcome A := m [].

(** What a call gives back, the console left aside. *)
Definition result {A} (o : Outcome A) : JsError + A :=
  match o with
  | Returned a _ => inr a
  | Threw e _ => inl e
  end.

(** First property named [k] of a property list. *)
Fixpoint lookup_prop (k : string) (props : list (string * JsValue)) : JsValue :=
  match props with
  | [] => JUndefined
  | (k', v) :: rest => if String.eqb k' k then v else lookup_prop k rest
  end.

(** [base.k].  The keys read by the configuration function ([env],
    [NODE_ENV], [mode]) are not defined on the prototypes of booleans and
    strings, so reading them off a primitive gives [undefined]. *)
Definition get (base : JsValue) (k : string) : Eff JsValue :=
  match base with
  | JUndefined | JNull => throw (CannotReadProperty k base)
  | JBool _ | JString _ => ret JUndefined
  | JObject props => ret (lookup_prop k props)
  end.

(** [v === s] for a string literal [s]. *)
Definition strict_eq_str (v : JsValue) (s : string) : bool :=
  match v with
  | JString t => String.eqb t s
  | _ => false
  end.

Definition strict_neq_str (v : JsValue) (s : string) : bool :=
  negb (strict_eq_str v s).

Definition is_primitive (v : JsValue) : bool :=
  match v with
  | JObject _ => false
  | _ => true
  end.

End Js.

Import Js.

#[global] Instance eff_ret : MRet Eff := @ret.
#[global] Instance eff_bind : MBind Eff := fun A B k m => bind m k.

(** ** Regular expressions

    The four literals of the configuration use only plain characters, one
    character class and the end anchor, with no flags, so [$] is the end of
    the input and [test] searches at every position. *)

Module Regex.

Inductive Atom : Type :=
| Chr (c : ascii)
| Class (cs : list ascii)
| End_.

Definition t := list Atom.

Fixpoint match_here (r : t) (s : string) : bool :=
  match r with
  | [] => true
  | End_ :: r' =>
      match s with
      | EmptyString => match_here r' s
      | String _ _ => false
      end
  | Chr c :: r' =>
      match s with
      | EmptyString => false
      | String d s' => Ascii.eqb c d && match_here r' s'
      end
  | Class cs :: r' =>
      match s with
      | EmptyString => false
      | String d s' => existsb (Ascii.eqb d) cs && match_here r' s'
      end
  end.

(** [r.test(s)] *)
Fixpoint test (r : t) (s : string) : bool :=
  match_here r s ||
  match s with
  | EmptyString => false
  | String _ s' => test r s'
  end.

Definition chars (s : string) : t := map Chr (list_ascii_of_string s).

Definition sep : Atom := Class ["\"%char; "/"%char].

End Regex.

(** ** [JSON.stringify]

    A string is a sequence of code units; the units of a Rocq string are
    bytes, which covers the Latin-1 range.  [undefined] has no JSON text:
    the result is then [undefined] itself, and an object property whose
    value has no text is skipped. *)

Module Json.

Definition hex_digit (n : nat) : ascii :=
  nth n (list_ascii_of_string "0123456789abcdef") "0"%char.

(** [\u00XX] for a control character. *)
Definition unicode_escape (c : ascii) : string :=
  let n := nat_of_ascii c in
  "\u00" ++ String (hex_digit (n / 16)) (String (hex_digit (n mod 16)) "").

Definition quote_char (c : ascii) : string :=
  let n := nat_of_ascii c in
  if Nat.eqb n 8 then "\b"
  else if Nat.eqb n 9 then "\t"
  else if Nat.eqb n 10 then "\n"
  else if Nat.eqb n 12 then "\f"
  else if Nat.eqb n 13 then "\r"
  else if Nat.eqb n 34 then "\" ++ String (ascii_of_nat 34) ""
  else if Nat.eqb n 92 then "\\"
  else if Nat.ltb n 32 then unicode_escape c
  else String c "".

Fixpoint quote_body (s : string) : string :=
  match s with
  | EmptyString => ""
  | String c s' => quote_char c ++ quote_body s'
  end.

Definition dquote : string := String (ascii_of_nat 34) "".

Definition quote (s : string) : string := dquote ++ quote_body s ++ dquote.

Fixpoint join (sep : string) (l : list string) : string :=
  match l with
  | [] => ""
  | [x] => x
  | x :: rest => x ++ sep ++ join sep rest
  end.

(** [JSON.stringify v]: the text, or [None] for [undefined].  A key that
    occurs twice in a property list stands for one property, the first, as
    in [Js.lookup_prop]. *)
Fixpoint stringify (v : JsValue) : option string :=
  match v with
  | JUndefined => None
  | JNull => Some "null"
  | JBool b => Some (if b then "true" else "false")
  | JString s => Some (quote s)
  | JObject props =>
      let members :=
        (fix members (seen : list string) (ps : list (string * JsValue))
           : list string :=
           match ps with
           | [] => []
           | (k, x) :: rest =>
               if existsb (String.eqb k) seen then members seen rest
               else
                 match stringify x with
                 | Some t => (quote k ++ ":" ++ t) :: members (k :: seen) rest
                 | None => members (k :: seen) rest
                 end
           end) in
      Some ("{" ++ join "," (members [] props) ++ "}")
  end.

End Json.

(** ** The configuration object *)

Module Webpack.

Record Output := {
  filename : string;
  path : string
}.

Record DevServer := {
  contentBase : string;
  hot : bool
}.

Record CoreJs := {
  version : nat;
  proposals : bool
}.

Record PresetEnvOptions := {
  useBuiltIns : string;
  targets : string;
  corejs : CoreJs
}.

(** [MiniCssExtractPlugin.loader] is a constant of the plugin; it is kept as
    a tag of its own. *)
Inductive LoaderRef : Type :=
| MiniCssExtractPlugin_loader
| LoaderName (s : string).

Inductive LoaderOptions : Type :=
| MiniCssLoaderOptions (hmr reloadAll : bool)
| BabelLoaderOptions (presets : list (string * PresetEnvOptions))
                     (babel_plugins : list string).

Inductive Use : Type :=
| UseString (s : string)
| UseLoader (loader : LoaderRef) (options : LoaderOptions).

Record Rule := {
  rule_test : Regex.t;
  exclude : option Regex.t;
  use : list Use
}.

Record CacheGroup := {
  test : Regex.t;
  name : string;
  group_chunks : string;
  enforce : option bool
}.

Record SplitChunks := {
  chunks : string;
  cacheGroups : list (string * CacheGroup)
}.

Record Optimization := {
  moduleIds : string;
  runtimeChunk : string;
  splitChunks : SplitChunks
}.

Inductive CopyPattern : Type :=
| CopyPath (from : string)
| CopyFromTo (from to : string).

Inductive Plugin : Type :=
| CleanWebpackPlugin
| HtmlWebpackPlugin (template : string)
| CopyPlugin (patterns : list CopyPattern)
| MiniCssExtractPlugin (css_filename css_chunkFilename : string)
                       (ignoreOrder : bool)
| DefinePlugin (definitions : list (string * option string)).

Record Config := {
  entry : list (string * string);
  output : Output;
  devtool : string;
  devServer : DevServer;
  module_rules : list Rule;
  optimization : Optimization;
  plugins : list Plugin
}.

End Webpack.

Import Webpack.


(** ** [module.exports] *)

(** [path.resolve(dir, seg)] for an absolute, normalised POSIX directory
    [dir] (no trailing separator, but for the root) and a plain segment
    [seg]. *)
Definition path_resolve (dir seg : string) : string :=
  if String.eqb dir "/" then "/" ++ seg else dir ++ "/" ++ seg.

Section Exports.

(** The directory of the configuration file. *)
Variable __dirname : string.

(** The object literal bound to [config]; its free variables are [devMode]
    and the value of [argv.env.NODE_ENV] read for the define plugin. *)
Definition config_literal (devMode : bool) (node_env : JsValue) : Config := {|
  entry := [("index", "./src/index.js")];
  output := {|
    filename := if devMode then "[name].js" else "[name].[contenthash].js";
    path := path_resolve __dirname "dist"
  |};
  devtool := if devMode then "source-map" else "cheap-source-map";
  devServer := {| contentBase := "./dist"; hot := true |};
  module_rules := [
    {| rule_test := (Regex.chars ".css" ++ [Regex.End_])%list;
       exclude := None;
       use := [
         UseLoader MiniCssExtractPlugin_loader
                   (MiniCssLoaderOptions devMode true);
         UseString "css-loader"
       ] |};
    {| rule_test := (Regex.chars ".js" ++ [Regex.End_])%list;
       exclude := Some (Regex.chars "node_modules");
       use := [
         UseLoader (LoaderName "babel-loader")
           (BabelLoaderOptions
              [("@babel/preset-env",
                {| useBuiltIns := "entry";
                   targets := "> 0.25%, not dead";
                   corejs := {| version := 3; proposals := true |} |})]
              ["@babel/plugin-proposal-object-rest-spread"])
       ] |}
  ];
  optimization := {|
    moduleIds := "hashed";
    runtimeChunk := "single";
    splitChunks := {|
      chunks := "all";
      cacheGroups := [
        ("vendor",
         {| test := (Regex.sep :: Regex.chars "node_modules" ++ [Regex.sep])%list;
            name := "vendors";
            group_chunks := "all";
            enforce := None |});
        ("styles",
         {| name := "styles";
            test := (Regex.chars ".css" ++ [Regex.End_])%list;
            group_chunks := "all";
            enforce := Some true |})
      ]
    |}
  |};
  plugins := [
    CleanWebpackPlugin;
    HtmlWebpackPlugin "./public/index.html";
    CopyPlugin [
      CopyPath "./data/states.geojson";
      CopyFromTo "public/assets/mapIcons" "assets/mapIcons"
    ];
    MiniCssExtractPlugin
      (if devMode then "[name].css" else "[name].[contenthash].css")
      (if devMode then "[id].css" else "[id].[contenthash].css")
      false;
    DefinePlugin [("process.env.NODE_ENV", Json.stringify node_env)]
  ]
|}.

(** [argv.env.NODE_ENV] *)
Definition argv_env_NODE_ENV (argv : JsValue) : Eff JsValue :=
  argv_env ← get argv "env";
  get argv_env "NODE_ENV".

Definition module_exports (env argv : JsValue) : Eff Config :=
  node_env ← argv_env_NODE_ENV argv;
  let devMode := strict_neq_str node_env "production" in
  mode ← get argv "mode";
  (if strict_eq_str mode "development" then
     console_log "webpack is in dev mode"
   else
     mode' ← get argv "mode";
     if strict_eq_str mode' "production" then
       console_log "webpack is in production mode"
     else
       console_log "webpack has no mode defined");;
  node_env' ← argv_env_NODE_ENV argv;
  let config := config_literal devMode node_env' in
  mret config.

End Exports.

(** ** Reading the rules and the plugins

    How the fields of a returned configuration are read.  As the comments
    of the configuration say, the [test] of a rule tells which files the
    rule targets and its [exclude] which files the rule ignores. *)

Module Rules.

Definition rule_applies (r : Rule) (resource : string) : bool :=
  Regex.test (rule_test r) resource &&
  match exclude r with
  | Some e => negb (Regex.test e resource)
  | None => true
  end.

(** The [use] entries of the rules that apply to a file, in rule order. *)
Definition loaders_for (cfg : Config) (resource : string) : list Use :=
  flat_map use
    (List.filter (fun r => rule_applies r resource) (module_rules cfg)).

(** The [hmr] options given to the loader of the style plugin. *)
Definition hmr_flags (cfg : Config) : list bool :=
  flat_map
    (fun r =>
       flat_map
         (fun u =>
            match u with
            | UseLoader MiniCssExtractPlugin_loader
                (MiniCssLoaderOptions hmr _) => [hmr]
            | _ => []
            end)
         (use r))
    (module_rules cfg).

(** The plugins whose options do not mention [devMode] or [argv]. *)
Definition fixed_plugins (cfg : Config) : list Plugin :=
  List.filter
    (fun p =>
       match p with
       | MiniCssExtractPlugin _ _ _ | DefinePlugin _ => false
       | _ => true
       end)
    (plugins cfg).

(** [s] ends with [suffix]; [s] has [part] somewhere inside. *)
Definition ends_with (s suffix : string) : Prop :=
  exists before, s = before ++ suffix.

Definition contains (s part : string) : Prop :=
  exists before after, s = before ++ part ++ after.

(** A hash written without a dot, as a hexadecimal digest is. *)
Definition dot_free (h : string) : Prop :=
  ~ In "."%char (list_ascii_of_string h).

End Rules.

(** ** Artifact naming

    The configuration names artifacts through templates.  The substitution
    of the placeholders is the bundler's; it is not part of the repository
    and is written here after the comments of the configuration: [[name]]
    is the key of the chunk in [entry] (its logical name), [[contenthash]]
    the hash of the artifact's content, [[id]] the chunk's identifier.  A
    bracketed word that is none of these stays as it is. *)

Module Naming.

Record ChunkInfo := {
  chunk_name : string;
  chunk_id : string;
  chunk_contenthash : string
}.

Definition placeholder (h : string) (c : ChunkInfo) : string :=
  if String.eqb h "name" then chunk_name c
  else if String.eqb h "id" then chunk_id c
  else if String.eqb h "contenthash" then chunk_contenthash c
  else "[" ++ h ++ "]".

(** [hole] is the text read since the last open bracket, if any. *)
Fixpoint render_from (tpl : string) (hole : option string) (c : ChunkInfo)
  : string :=
  match tpl, hole with
  | EmptyString, None => EmptyString
  | EmptyString, Some h => "[" ++ h
  | String ch rest, None =>
      if Ascii.eqb ch "["%char then render_from rest (Some EmptyString) c
      else String ch (render_from rest None c)
  | String ch rest, Some h =>
      if Ascii.eqb ch "]"%char then placeholder h c ++ render_from rest None c
      else render_from rest (Some (h ++ String ch EmptyString)) c
  end.

Definition render (tpl : string) (c : ChunkInfo) : string :=
  render_from tpl None c.

Inductive ArtifactKind : Type := Script | Style.

(** [Filename] names the artifact of an initial chunk, [ChunkFilename] the
    artifact of a chunk loaded on demand. *)
Inductive TemplateRole : Type := Filename | ChunkFilename.

Definition extension (k : ArtifactKind) : string :=
  match k with
  | Script => ".js"
  | Style => ".css"
  end.

Fixpoint mini_css_templates (ps : list Plugin) : option (string * string) :=
  match ps with
  | [] => None
  | MiniCssExtractPlugin f cf _ :: _ => Some (f, cf)
  | _ :: rest => mini_css_templates rest
  end.

(** The template the configuration declares for an artifact.
    [output.chunkFilename] is not set by the configuration. *)
Definition template (cfg : Config) (k : ArtifactKind) (r : TemplateRole)
  : option string :=
  match k, r with
  | Script, Filename => Some (filename (output cfg))
  | Script, ChunkFilename => None
  | Style, Filename => fst <$> mini_css_templates (plugins cfg)
  | Style, ChunkFilename => snd <$> mini_css_templates (plugins cfg)
  end.

Definition emitted_filename (cfg : Config) (k : ArtifactKind)
    (r : TemplateRole) (c : ChunkInfo) : option string :=
  (fun tpl => render tpl c) <$> template cfg k r.

(** What follows the stem of a name: nothing in development mode, a dot
    and the content hash otherwise. *)
Definition hash_suffix (devMode : bool) (c : ChunkInfo) : string :=
  if devMode then "" else "." ++ chunk_contenthash c.

(** Modelled from the spec: glossary and section 9, the content hash is a
    deterministic digest of the final bytes of the artifact.  The digest is
    the bundler's; [contenthash] stands for it. *)
Definition chunk_info (contenthash : string -> string)
    (name id content : string) : ChunkInfo :=
  {| chunk_name := name;
     chunk_id := id;
     chunk_contenthash := contenthash content |}.

End Naming.

(** ** The definitions of the define plugin

    What the configuration hands to [webpack.DefinePlugin], and the reading
    of a JSON text as a literal.  The value of a definition is code; an
    absent value stands for the code [undefined]. *)

Module Define.

Definition to_code (v : option string) : string :=
  match v with
  | Some code => code
  | None => "undefined"
  end.

Fixpoint definitions_of (ps : list Plugin) : list (string * option string) :=
  match ps with
  | [] => []
  | DefinePlugin defs :: rest => (defs ++ definitions_of rest)%list
  | _ :: rest => definitions_of rest
  end.

(** *** Reading a literal back

    The value of a literal: [undefined], [null], a boolean, or a string
    literal with the escapes that [Json.quote] writes. *)

Definition hex_value (c : ascii) : option nat :=
  let n := nat_of_ascii c in
  if Nat.leb 48 n && Nat.leb n 57 then Some (n - 48)
  else if Nat.leb 97 n && Nat.leb n 102 then Some (n - 87)
  else if Nat.leb 65 n && Nat.leb n 70 then Some (n - 55)
  else None.

Definition hex4 (a b c d : ascii) : option ascii :=
  match hex_value a, hex_value b, hex_value c, hex_value d with
  | Some 0, Some 0, Some x, Some y => Some (ascii_of_nat (16 * x + y))
  | _, _, _, _ => None
  end.

(** The body of a string literal up to its closing quote, which must end
    the text. *)
Fixpoint unquote_body (s : string) : option string :=
  match s with
  | EmptyString => None
  | String c rest =>
      let n := nat_of_ascii c in
      if Nat.eqb n 34 then
        match rest with
        | EmptyString => Some EmptyString
        | String _ _ => None
        end
      else if Nat.eqb n 92 then
        match rest with
        | EmptyString => None
        | String e rest' =>
            let k := nat_of_ascii e in
            if Nat.eqb k 98 then String (ascii_of_nat 8) <$> unquote_body rest'
            else if Nat.eqb k 116 then String (ascii_of_nat 9) <$> unquote_body rest'
            else if Nat.eqb k 110 then String (ascii_of_nat 10) <$> unquote_body rest'
            else if Nat.eqb k 102 then String (ascii_of_nat 12) <$> unquote_body rest'
            else if Nat.eqb k 114 then String (ascii_of_nat 13) <$> unquote_body rest'
            else if Nat.eqb k 34 then String (ascii_of_nat 34) <$> unquote_body rest'
            else if Nat.eqb k 92 then String (ascii_of_nat 92) <$> unquote_body rest'
            else if Nat.eqb k 117 then
              match rest' with
              | String a (String b (String c' (String d rest''))) =>
                  match hex4 a b c' d with
                  | Some u => String u <$> unquote_body rest''
                  | None => None
                  end
              | _ => None
              end
            else None
        end
      else if Nat.ltb n 32 then None
      else String c <$> unquote_body rest
  end.

Definition eval_literal (code : string) : option JsValue :=
  if String.eqb code "undefined" then Some JUndefined
  else if String.eqb code "null" then Some JNull
  else if String.eqb code "true" then Some (JBool true)
  else if String.eqb code "false" then Some (JBool false)
  else
    match code with
    | String q body =>
        if Nat.eqb (nat_of_ascii q) 34 then JString <$> unquote_body body
        else None
    | EmptyString => None
    end.

End Define.
(** ** The pipeline

    The graph builder and the chunk planner are the bundler's; they are not
    part of the repository, which only configures them.  They are written
    here after sections 3 and 4 of the specification, and read the
    configuration returned by [module_exports]. *)

Module Pipeline.

Inductive BuildError : Type :=
| ResolutionError (specifier fromModuleId : string)
| TransformError (moduleId : string)
| ConfigError (field : string)
| EmitError.

(** *** Breadth-first traversal

    Modelled from the spec: section 4.3, the traversal of the dependency
    graph builder.  [next m] handles a module taken from the queue and
    gives its payload and the identities it imports.  [seen] is the key set
    of the module table: an identity is queued on its first discovery only.
    [visited] lists the handled modules, oldest first, one element per call
    of [next]. *)

Section Traversal.

Context {A : Type}.
Variable next : string -> BuildError + (A * list string).

(** Insert-if-absent on the module table, queueing what is new. *)
Fixpoint discover (targets : list string) (queue : list string)
    (seen : gset string) : list string * gset string :=
  match targets with
  | [] => (queue, seen)
  | t :: rest =>
      if decide (t ∈ seen) then discover rest queue seen
      else discover rest (queue ++ [t])%list ({[t]} ∪ seen)
  end.

Fixpoint bfs (fuel : nat) (queue : list string) (seen : gset string)
    (visited : list (string * A))
  : option (BuildError + list (string * A)) :=
  match queue with
  | [] => Some (inr visited)
  | m :: rest =>
      match fuel with
      | 0 => None
      | S fuel' =>
          match next m with
          | inl e => Some (inl e)
          | inr (a, targets) =>
              let qs := discover targets rest seen in
              bfs fuel' qs.1 qs.2 (visited ++ [(m, a)])%list
          end
      end
  end.

Definition traverse (fuel : nat) (roots : list string)
  : option (BuildError + list (string * A)) :=
  let qs := discover roots [] ∅ in
  bfs fuel qs.1 qs.2 [].

(** [m] imports [t] *)
Definition edge (m t : string) : Prop :=
  exists a targets, next m = inr (a, targets) /\ t ∈ targets.

Inductive reach (r : string) : string -> Prop :=
| reach_root : reach r r
| reach_edge m t : reach r m -> edge m t -> reach r t.

(** What holds between two steps of the traversal: no identity is queued
    or handled twice, the table holds what is queued or handled, and the
    imports of a handled module are in the table. *)
Definition invariant (queue : list string) (seen : gset string)
    (visited : list (string * A)) : Prop :=
  NoDup (visited.*1 ++ queue) /\
  (forall x, x ∈ seen <-> x ∈ visited.*1 \/ x ∈ queue) /\
  (forall x a, (x, a) ∈ visited ->
     exists targets, next x = inr (a, targets) /\
                     forall t, t ∈ targets -> t ∈ seen).

End Traversal.

(** *** The dependency graph builder *)

(** Modelled from the spec: section 3, a module after its transformation,
    with the identities its declared imports resolve to. *)
Record Module := {
  raw_content : string;
  declared_imports : list string;
  transformed : string;
  resolved_imports : list string
}.

Section Builder.

(** The source tree: raw content and declared imports of each module, by
    identity. *)
Variable files : gmap string (string * list string).

(** Modelled from the spec: section 4.1, [resolve specifier fromModuleId]. *)
Variable resolve : string -> string -> option string.

(** Modelled from the spec: section 4.2, the transform chain on the raw
    content of a module. *)
Variable transform : string -> string -> option string.

Fixpoint resolve_all (from : string) (specs : list string)
  : BuildError + list string :=
  match specs with
  | [] => inr []
  | spec :: rest =>
      match resolve spec from with
      | None => inl (ResolutionError spec from)
      | Some t =>
          match resolve_all from rest with
          | inl e => inl e
          | inr ts => inr (t :: ts)
          end
      end
  end.

(** Resolve and transform a module, then inspect its declared imports. *)
Definition load (m : string) : BuildError + (Module * list string) :=
  match files !! m with
  | None => inl (ResolutionError m m)
  | Some (raw, specs) =>
      match transform m raw with
      | None => inl (TransformError m)
      | Some out =>
          match resolve_all m specs with
          | inl e => inl e
          | inr targets =>
              inr ({| raw_content := raw;
                      declared_imports := specs;
                      transformed := out;
                      resolved_imports := targets |}, targets)
          end
      end
  end.

(** [build entryPoints]: the modules in the order of their transformation.
    No module is handled twice, so the size of the source tree bounds the
    number of steps. *)
Definition build (entryPoints : list (string * string))
  : option (BuildError + list (string * Module)) :=
  traverse load (S (size files)) (entryPoints.*2).

End Builder.

(** Modelled from the spec: section 3, the invariant of a module graph.
    Every module is held once and every edge leads to a module of the
    graph. *)
Definition closed_graph (g : list (string * Module)) : Prop :=
  NoDup g.*1 /\
  forall x md t, (x, md) ∈ g -> t ∈ resolved_imports md -> t ∈ g.*1.

(** The module table of a finished graph. *)
Definition module_table (g : list (string * Module)) : gmap string Module :=
  list_to_map g.

(** Following the edges of a finished graph. *)
Definition follow (g : list (string * Module)) (m : string)
  : BuildError + (unit * list string) :=
  match module_table g !! m with
  | None => inl (ResolutionError m m)
  | Some md => inr (tt, resolved_imports md)
  end.

(** The modules reachable from [root] in a finished graph. *)
Definition reachable_from (g : list (string * Module)) (root : string)
  : list string :=
  match traverse (follow g) (S (length g)) [root] with
  | Some (inr visited) => visited.*1
  | _ => []
  end.

(** *** The chunk planner *)

Inductive ChunkKey : Type :=
| Runtime
| Named (target : string)
| Entry (entryName : string)
| Shared.

#[global] Instance ChunkKey_eq_dec : EqDecision ChunkKey.
Proof. solve_decision. Defined.

Record Chunk := {
  key : ChunkKey;
  members : list string
}.

(** Modelled from the spec: section 4.4, the rules are evaluated in
    declared order and the first one that matches names the chunk.  A rule
    is a cache group of the configuration: it matches a module when its
    [test] matches the module's identity, and its target is its [name]. *)
Fixpoint first_match (rules : list (string * CacheGroup)) (m : string)
  : option string :=
  match rules with
  | [] => None
  | (_, g) :: rest =>
      if Regex.test (test g) m then Some (name g) else first_match rest m
  end.

Section Planner.

Variable cfg : Config.
Variable entryPoints : list (string * string).
Variable g : list (string * Module).

(** The entry points a module is reachable from. *)
Definition owners (m : string) : list string :=
  (filter (fun e => m ∈ reachable_from g e.2) entryPoints).*1.

(** Modelled from the spec: section 4.4, phase 2.  A module that no rule
    matches goes to the chunk of its entry point, or to the shared chunk
    when it is reachable from more than one. *)
Definition chunk_key (m : string) : ChunkKey :=
  match first_match (cacheGroups (splitChunks (optimization cfg))) m with
  | Some target => Named target
  | None =>
      match owners m with
      | [e] => Entry e
      | _ => Shared
      end
  end.

Definition module_chunks : list Chunk :=
  let ids := g.*1 in
  (fun k => {| key := k;
               members := filter (fun m => chunk_key m = k) ids |})
    <$> remove_dups (chunk_key <$> ids).

(** Modelled from the spec: section 4.4, phase 1, and section 9 (an option
    that is not recognised is rejected).  The runtime chunk holds the
    bootstrap logic and no module; the list is in load order. *)
Definition plan : BuildError + list Chunk :=
  if String.eqb (runtimeChunk (optimization cfg)) "single" then
    inr ({| key := Runtime; members := [] |} :: module_chunks)
  else inl (ConfigError "optimization.runtimeChunk").

(** The chunks an entry point loads, in load order. *)
Definition entry_chunks (chunks : list Chunk) (e : string) : list Chunk :=
  filter (fun c => key c = Runtime \/ Exists (fun m => e ∈ owners m) (members c))
         chunks.

End Planner.

End Pipeline.

Import Pipeline.

(** ** A small source tree

    Two entry points that share a module, a style sheet and a vendor
    module; it is used to run the pipeline on concrete input. *)

Module Example.

Definition files : gmap string (string * list string) :=
  list_to_map [
    ("./src/index.js", ("import './util'; import './style.css'",
                        ["./util"; "./style.css"]));
    ("./src/admin.js", ("import './util'", ["./util"]));
    ("./src/util.js", ("import 'leaflet'", ["leaflet"]));
    ("./src/style.css", ("body {}", []));
    ("/app/node_modules/leaflet/dist/leaflet-src.js", ("L = {}", []))
  ].

Definition resolve (specifier fromModuleId : string) : option string :=
  if String.eqb specifier "./util" then Some "./src/util.js"
  else if String.eqb specifier "./style.css" then Some "./src/style.css"
  else if String.eqb specifier "leaflet" then
    Some "/app/node_modules/leaflet/dist/leaflet-src.js"
  else None.

Definition transform (moduleId raw : string) : option string :=
  Some ("/* " ++ moduleId ++ " */ " ++ raw).

Definition entryPoints : list (string * string) :=
  [("index", "./src/index.js"); ("admin", "./src/admin.js")].

End Example.

(** * Properties *)

(** ** The definitions on concrete input *)

Example test_css_suffix :
  Regex.test (Regex.chars ".css" ++ [Regex.End_])%list "src/app.css" = true /\
  Regex.test (Regex.chars ".css" ++ [Regex.End_])%list "src/app.css.map" = false.
Proof. split; reflexivity. Qed.

Example test_vendor_path :
  let vendor :=
    (Regex.sep :: Regex.chars "node_modules" ++ [Regex.sep])%list in
  Regex.test vendor "C:\proj\node_modules\leaflet\index.js" = true /\
  Regex.test vendor "/app/node_modules/leaflet/index.js" = true /\
  Regex.test vendor "/app/src/node_modules.js" = false.
Proof. repeat split; reflexivity. Qed.

Example stringify_escapes :
  Json.stringify (JString (String "a"%char (String (ascii_of_nat 10) "b"))) =
  Some (Json.dquote ++ "a\nb" ++ Json.dquote).
Proof. reflexivity. Qed.

Example stringify_object :
  Json.stringify (JObject [("a", JBool true); ("b", JUndefined);
                           ("c", JNull)]) =
  Some ("{" ++ Json.quote "a" ++ ":true," ++ Json.quote "c" ++ ":null}").
Proof. reflexivity. Qed.

Example production_call :
  exists cfg,
    run (module_exports "/app" JUndefined
           (JObject [("env", JObject [("NODE_ENV", JString "production")]);
                     ("mode", JString "production")])) =
    Returned cfg ["webpack is in production mode"] /\
    filename (output cfg) = "[name].[contenthash].js" /\
    path (output cfg) = "/app/dist" /\
    devtool cfg = "cheap-source-map".
Proof.
  eexists. split; [vm_compute; reflexivity | repeat split; reflexivity].
Qed.

Example development_call :
  exists cfg,
    run (module_exports "/app" JUndefined
           (JObject [("env", JObject [("NODE_ENV", JString "development")]);
                     ("mode", JString "development")])) =
    Returned cfg ["webpack is in dev mode"] /\
    filename (output cfg) = "[name].js" /\
    devtool cfg = "source-map".
Proof.
  eexists. split; [vm_compute; reflexivity | repeat split; reflexivity].
Qed.

Example example_plan :
  exists g,
    build Example.files Example.resolve Example.transform
          Example.entryPoints = Some (inr g) /\
    g.*1 = ["./src/index.js"; "./src/admin.js"; "./src/util.js";
            "./src/style.css";
            "/app/node_modules/leaflet/dist/leaflet-src.js"] /\
    plan (config_literal "/app" true JUndefined) Example.entryPoints g =
    inr [ {| key := Runtime; members := [] |};
          {| key := Entry "index"; members := ["./src/index.js"] |};
          {| key := Entry "admin"; members := ["./src/admin.js"] |};
          {| key := Shared; members := ["./src/util.js"] |};
          {| key := Named "styles"; members := ["./src/style.css"] |};
          {| key := Named "vendors";
             members := ["/app/node_modules/leaflet/dist/leaflet-src.js"] |} ].
Proof.
  eexists. split; [vm_compute; reflexivity |].
  split; vm_compute; reflexivity.
Qed.

(** ** The configuration function *)

Section ExportsFacts.

Variable dir : string.
Variables env argv : JsValue.

(** Reading a property logs nothing and does not depend on the console. *)
Lemma get_pure base k :
  (exists v, forall out, get base k out = Returned v out) \/
  (exists e, forall out, get base k out = Threw e out).
Proof.
  destruct base; simpl; eauto.
Qed.

Lemma argv_env_NODE_ENV_pure :
  (exists v, forall out, argv_env_NODE_ENV argv out = Returned v out) \/
  (exists e, forall out, argv_env_NODE_ENV argv out = Threw e out).
Proof.
  unfold argv_env_NODE_ENV, mbind, eff_bind, bind.
  destruct (get_pure argv "env") as [[e He] | [e He]].
  - destruct (get_pure e "NODE_ENV") as [[v Hv] | [e' He']].
    + left. exists v. intros out. rewrite He. apply Hv.
    + right. exists e'. intros out. rewrite He. apply He'.
  - right. exists e. intros out. rewrite He. reflexivity.
Qed.

(** Once [argv.env.NODE_ENV] has been read, [argv.mode] can be read. *)
Lemma get_mode_returns v out out' :
  argv_env_NODE_ENV argv out = Returned v out' ->
  exists mode, forall o, get argv "mode" o = Returned mode o.
Proof.
  unfold argv_env_NODE_ENV, mbind, eff_bind, bind.
  destruct argv as [| | b | s | props]; simpl; try discriminate; eauto.
Qed.

(** The line logged for a value of [argv.mode]. *)
Lemma module_exports_returns v mode :
  run (argv_env_NODE_ENV argv) = Returned v [] ->
  run (get argv "mode") = Returned mode [] ->
  run (module_exports dir env argv) =
  Returned (config_literal dir (strict_neq_str v "production") v)
    [if strict_eq_str mode "development" then "webpack is in dev mode"
     else if strict_eq_str mode "production" then
       "webpack is in production mode"
     else "webpack has no mode defined"].
Proof.
  unfold run. intros Hv Hmode.
  destruct argv_env_NODE_ENV_pure as [[v' Hv'] | [e He]];
    [| rewrite He in Hv; discriminate].
  rewrite Hv' in Hv. injection Hv as ->.
  destruct (get_pure argv "mode") as [[m' Hm'] | [e He]];
    [| rewrite He in Hmode; discriminate].
  rewrite Hm' in Hmode. injection Hmode as ->.
  unfold module_exports, mbind, eff_bind, bind.
  rewrite Hv', Hm'.
  destruct (strict_eq_str mode "development"); simpl.
  - rewrite Hv'. reflexivity.
  - rewrite Hm'.
    destruct (strict_eq_str mode "production"); simpl; rewrite Hv'; reflexivity.
Qed.

(** The function as a whole: it throws what reading [argv.env.NODE_ENV]
    throws, before logging anything, and otherwise logs one line and
    returns the object literal. *)
Lemma module_exports_run :
  match run (argv_env_NODE_ENV argv) with
  | Threw e _ => run (module_exports dir env argv) = Threw e []
  | Returned v _ =>
      exists line,
        run (module_exports dir env argv) =
        Returned (config_literal dir (strict_neq_str v "production") v) [line]
  end.
Proof.
  destruct argv_env_NODE_ENV_pure as [[v Hv] | [e He]].
  - unfold run at 1. rewrite Hv.
    destruct (get_mode_returns _ _ _ (Hv [])) as [mode Hmode].
    eexists. apply module_exports_returns with (mode := mode).
    + apply Hv.
    + apply Hmode.
  - unfold run. rewrite He. unfold module_exports, mbind, eff_bind, bind.
    rewrite He. reflexivity.
Qed.

Lemma module_exports_result :
  result (run (module_exports dir env argv)) =
  match result (run (argv_env_NODE_ENV argv)) with
  | inl e => inl e
  | inr v => inr (config_literal dir (strict_neq_str v "production") v)
  end.
Proof.
  pose proof module_exports_run as H.
  destruct (run (argv_env_NODE_ENV argv)) as [v out | e out]; simpl.
  - destruct H as [line ->]. reflexivity.
  - rewrite H. reflexivity.
Qed.

End ExportsFacts.

(** C9: when [argv.env] is undefined the function throws the [TypeError]
    of the property access at its first statement, with nothing logged and
    no configuration returned; and whenever a configuration is returned,
    [argv.env] was neither [undefined] nor [null]. *)
Theorem missing_env_throws (dir : string) (env argv : JsValue) :
  (run (get argv "env") = Returned JUndefined [] ->
   run (module_exports dir env argv) =
   Threw (CannotReadProperty "NODE_ENV" JUndefined) []) /\
  (forall cfg out,
     run (module_exports dir env argv) = Returned cfg out ->
     exists e, run (get argv "env") = Returned e [] /\
               e <> JUndefined /\ e <> JNull).
Proof.
  pose proof (module_exports_run dir env argv) as Hrun.
  split.
  - intros Henv.
    assert (run (argv_env_NODE_ENV argv) =
            Threw (CannotReadProperty "NODE_ENV" JUndefined) []) as Hne.
    { unfold run, argv_env_NODE_ENV, mbind, eff_bind, bind in *.
      rewrite Henv. reflexivity. }
    rewrite Hne in Hrun. exact Hrun.
  - intros cfg out Hcfg.
    destruct (run (argv_env_NODE_ENV argv)) as [v o | e o] eqn:Hne;
      [| rewrite Hrun in Hcfg; discriminate].
    unfold run, argv_env_NODE_ENV, mbind, eff_bind, bind in Hne.
    destruct argv as [| | b | s | props]; simpl in Hne; try discriminate.
    exists (lookup_prop "env" props). split; [reflexivity |].
    destruct (lookup_prop "env" props); simpl in Hne;
      try discriminate; split; discriminate.
Qed.

Lemma missing_env_throws_witness :
  run (module_exports "/app" JUndefined
         (JObject [("mode", JString "development")])) =
  Threw (CannotReadProperty "NODE_ENV" JUndefined) [].
Proof.
  apply (proj1 (missing_env_throws "/app" JUndefined
                  (JObject [("mode", JString "development")]))).
  reflexivity.
Defined.

(** C8: two calls that agree on [argv.env.NODE_ENV] (the same value, or the
    same error) give back the same thing: the same configuration, hence the
    same [output.filename], [devtool], [hmr] option and style templates, or
    the same error.  What [argv.mode] and [env] are makes no difference to
    it. *)
Theorem config_depends_on_NODE_ENV_only
    (dir : string) (env1 argv1 env2 argv2 : JsValue) :
  run (argv_env_NODE_ENV argv1) = run (argv_env_NODE_ENV argv2) ->
  result (run (module_exports dir env1 argv1)) =
  result (run (module_exports dir env2 argv2)).
Proof.
  intros Heq. rewrite !module_exports_result, Heq. reflexivity.
Qed.

Lemma config_depends_on_NODE_ENV_only_witness :
  result (run (module_exports "/app" JUndefined
    (JObject [("env", JObject [("NODE_ENV", JString "production")]);
              ("mode", JString "development")]))) =
  result (run (module_exports "/app" JNull
    (JObject [("mode", JBool true);
              ("env", JObject [("NODE_ENV", JString "production");
                               ("debug", JBool true)])]))).
Proof.
  apply config_depends_on_NODE_ENV_only. reflexivity.
Defined.

(** C1, as stated, fails: a mode that is neither development nor production
    does not make the function throw.  With [NODE_ENV] and [mode] both set
    to staging the function returns a configuration. *)
Lemma unrecognised_mode_is_not_rejected :
  ~ (forall (dir : string) (env argv mode : JsValue),
       run (get argv "mode") = Returned mode [] ->
       strict_eq_str mode "development" = false ->
       strict_eq_str mode "production" = false ->
       exists e out, run (module_exports dir env argv) = Threw e out).
Proof.
  intros H.
  destruct (H "/app" JUndefined
              (JObject [("env", JObject [("NODE_ENV", JString "staging")]);
                        ("mode", JString "staging")])
              (JString "staging") eq_refl eq_refl eq_refl) as (e & out & He).
  vm_compute in He. discriminate He.
Qed.

(** C1, amended: when [argv.env.NODE_ENV] can be read and [argv.mode] is
    neither development nor production, the function does not fail: it
    logs that no mode is defined and returns the configuration, which is
    the development one unless [NODE_ENV] is the string production. *)
Theorem unrecognised_mode_logs_and_returns
    (dir : string) (env argv v mode : JsValue) :
  run (argv_env_NODE_ENV argv) = Returned v [] ->
  run (get argv "mode") = Returned mode [] ->
  strict_eq_str mode "development" = false ->
  strict_eq_str mode "production" = false ->
  run (module_exports dir env argv) =
  Returned (config_literal dir (strict_neq_str v "production") v)
    ["webpack has no mode defined"].
Proof.
  intros Hv Hmode Hdev Hprod.
  rewrite (module_exports_returns dir env argv v mode Hv Hmode).
  rewrite Hdev, Hprod. reflexivity.
Qed.

Lemma unrecognised_mode_logs_and_returns_witness :
  run (module_exports "/app" JUndefined
         (JObject [("env", JObject [("NODE_ENV", JString "staging")]);
                   ("mode", JString "staging")])) =
  Returned (config_literal "/app" true (JString "staging"))
    ["webpack has no mode defined"].
Proof.
  apply (unrecognised_mode_logs_and_returns "/app" JUndefined _
           (JString "staging") (JString "staging"));
    reflexivity.
Defined.

(** The configuration a call returns is the object literal. *)
Lemma module_exports_config (dir : string) (env argv v : JsValue) cfg out :
  run (argv_env_NODE_ENV argv) = Returned v [] ->
  run (module_exports dir env argv) = Returned cfg out ->
  cfg = config_literal dir (strict_neq_str v "production") v.
Proof.
  intros Hv Hcfg.
  pose proof (module_exports_run dir env argv) as Hrun.
  rewrite Hv in Hrun. destruct Hrun as [line Hrun].
  rewrite Hrun in Hcfg. injection Hcfg as <- _. reflexivity.
Qed.

(** ** Artifact names *)

Section NamingFacts.

Import Naming.

Lemma append_nil_r (s : string) : s ++ "" = s.
Proof.
  induction s as [| x t IH]; [reflexivity |].
  change (String x (t ++ "") = String x t). now rewrite IH.
Qed.

Lemma append_assoc (a b c : string) : (a ++ b) ++ c = a ++ (b ++ c).
Proof.
  induction a as [| x t IH]; [reflexivity |].
  change (String x ((t ++ b) ++ c) = String x (t ++ (b ++ c))).
  now rewrite IH.
Qed.

Lemma list_ascii_of_append (a b : string) :
  list_ascii_of_string (a ++ b) =
  (list_ascii_of_string a ++ list_ascii_of_string b)%list.
Proof.
  induction a as [| x t IH]; [reflexivity |].
  change (x :: list_ascii_of_string (t ++ b) =
          x :: (list_ascii_of_string t ++ list_ascii_of_string b)%list).
  now rewrite IH.
Qed.

Lemma append_inv_tail (a b s : string) : a ++ s = b ++ s -> a = b.
Proof.
  intros H. apply (f_equal list_ascii_of_string) in H.
  rewrite !list_ascii_of_append in H. apply app_inv_tail in H.
  rewrite <- (string_of_list_ascii_of_string a),
          <- (string_of_list_ascii_of_string b).
  now rewrite H.
Qed.

Lemma filename_templates dir devMode v k c :
  emitted_filename (config_literal dir devMode v) k Filename c =
  Some (chunk_name c ++ hash_suffix devMode c ++ extension k).
Proof.
  destruct devMode, k; reflexivity.
Qed.

Lemma style_chunk_template dir devMode v c :
  emitted_filename (config_literal dir devMode v) Style ChunkFilename c =
  Some (chunk_id c ++ hash_suffix devMode c ++ ".css").
Proof.
  destruct devMode; reflexivity.
Qed.

End NamingFacts.

(** C3, as stated, fails for the style artifact of a chunk named through
    [chunkFilename]: in development mode the chunk [styles] with identifier
    [1] is emitted as [1.css], which is neither its logical name nor its
    logical name with the extension. *)
Lemma style_chunk_not_named_by_name :
  ~ (forall (dir : string) (env argv v : JsValue) cfg out k r c f,
       run (argv_env_NODE_ENV argv) = Returned v [] ->
       run (module_exports dir env argv) = Returned cfg out ->
       Naming.emitted_filename cfg k r c = Some f ->
       let stem :=
         Naming.chunk_name c ++
         Naming.hash_suffix (strict_neq_str v "production") c in
       f = stem \/ f = stem ++ Naming.extension k).
Proof.
  intros H.
  specialize (H "/app" JUndefined
                (JObject [("env", JObject [("NODE_ENV", JString "development")])])
                (JString "development") _ _
                Naming.Style Naming.ChunkFilename
                {| Naming.chunk_name := "styles";
                   Naming.chunk_id := "1";
                   Naming.chunk_contenthash := "abc" |}
                "1.css" eq_refl eq_refl eq_refl).
  vm_compute in H. destruct H as [H | H]; discriminate H.
Qed.

(** C3, amended: an artifact named through a [filename] template (the
    script of a chunk by [output.filename], its style by the [filename] of
    the style plugin) is named, in development mode, by the logical chunk
    name and the extension of its kind, and otherwise by the logical name, a
    dot, the content hash and the extension.  A style artifact named through
    [chunkFilename] has the chunk identifier in place of the logical name.
    The configuration declares no [chunkFilename] for scripts. *)
Theorem emitted_filename_by_template
    (dir : string) (env argv v : JsValue) cfg out :
  run (argv_env_NODE_ENV argv) = Returned v [] ->
  run (module_exports dir env argv) = Returned cfg out ->
  let devMode := strict_neq_str v "production" in
  (forall k c,
     Naming.emitted_filename cfg k Naming.Filename c =
     Some (Naming.chunk_name c ++ Naming.hash_suffix devMode c ++
           Naming.extension k)) /\
  (forall c,
     Naming.emitted_filename cfg Naming.Style Naming.ChunkFilename c =
     Some (Naming.chunk_id c ++ Naming.hash_suffix devMode c ++ ".css")) /\
  (forall c,
     Naming.emitted_filename cfg Naming.Script Naming.ChunkFilename c = None).
Proof.
  intros Hv Hcfg devMode.
  rewrite (module_exports_config dir env argv v cfg out Hv Hcfg).
  split; [| split].
  - intros k c. apply filename_templates.
  - intros c. apply style_chunk_template.
  - intros c. reflexivity.
Qed.

Lemma emitted_filename_by_template_witness :
  Naming.emitted_filename
    (config_literal "/app" false (JString "production"))
    Naming.Script Naming.Filename
    {| Naming.chunk_name := "index";
       Naming.chunk_id := "0";
       Naming.chunk_contenthash := "0f3a" |} =
  Some "index.0f3a.js".
Proof.
  pose proof (emitted_filename_by_template "/app" JUndefined
    (JObject [("env", JObject [("NODE_ENV", JString "production")]);
              ("mode", JString "production")])
    (JString "production") _ _ eq_refl eq_refl) as [H _].
  apply (H Naming.Script).
Defined.

(** With the same stem and extension, two hashed names are equal exactly
    when the hashes are. *)
Lemma hashed_name_inj (stem ext h1 h2 : string) :
  stem ++ ("." ++ h1) ++ ext = stem ++ ("." ++ h2) ++ ext <-> h1 = h2.
Proof.
  split; [| now intros ->].
  intros H. apply String.app_inj in H. apply append_inv_tail in H.
  now apply (String.app_inj ".") in H.
Qed.

Lemma production_name_changes_with_hash dir v k r c1 c2 f1 f2 :
  Naming.chunk_name c1 = Naming.chunk_name c2 ->
  Naming.chunk_id c1 = Naming.chunk_id c2 ->
  Naming.emitted_filename (config_literal dir false v) k r c1 = Some f1 ->
  Naming.emitted_filename (config_literal dir false v) k r c2 = Some f2 ->
  f1 = f2 <-> Naming.chunk_contenthash c1 = Naming.chunk_contenthash c2.
Proof.
  intros Hname Hid H1 H2.
  destruct r.
  - rewrite filename_templates in H1, H2.
    injection H1 as <-. injection H2 as <-.
    rewrite Hname. apply hashed_name_inj.
  - destruct k; [discriminate H1 |].
    rewrite style_chunk_template in H1, H2.
    injection H1 as <-. injection H2 as <-.
    rewrite Hid. apply hashed_name_inj.
Qed.

Lemma development_name_ignores_hash dir v1 v2 k r c1 c2 :
  Naming.chunk_name c1 = Naming.chunk_name c2 ->
  Naming.chunk_id c1 = Naming.chunk_id c2 ->
  Naming.emitted_filename (config_literal dir true v1) k r c1 =
  Naming.emitted_filename (config_literal dir true v2) k r c2.
Proof.
  intros Hname Hid.
  destruct r.
  - rewrite !filename_templates, Hname. reflexivity.
  - destruct k; [reflexivity |].
    rewrite !style_chunk_template, Hid. reflexivity.
Qed.




(** ** Reading a JSON text back *)

Section DefineFacts.

Import Define.

(** One character of a string literal, written and read back. *)
Lemma unquote_quote_char (c : ascii) (rest : string) :
  unquote_body (Json.quote_char c ++ rest) = String c <$> unquote_body rest.
Proof.
  destruct c as [[] [] [] [] [] [] [] []]; reflexivity.
Qed.

Lemma unquote_quote_body (s : string) :
  unquote_body (Json.quote_body s ++ Json.dquote) = Some s.
Proof.
  induction s as [| c t IH]; [reflexivity |].
  change (Json.quote_body (String c t))
    with (Json.quote_char c ++ Json.quote_body t).
  rewrite append_assoc, unquote_quote_char, IH. reflexivity.
Qed.

(** The JSON text of a primitive value reads back as that value. *)
Lemma literal_roundtrip (v : JsValue) :
  is_primitive v = true ->
  eval_literal (to_code (Json.stringify v)) = Some v.
Proof.
  destruct v as [| | [] | s | props]; intros Hprim;
    try reflexivity; [| discriminate Hprim].
  change (JString <$> unquote_body (Json.quote_body s ++ Json.dquote) =
          Some (JString s)).
  rewrite unquote_quote_body. reflexivity.
Qed.

Lemma definitions_of_literal dir devMode v :
  definitions_of (plugins (config_literal dir devMode v)) =
  [("process.env.NODE_ENV", Json.stringify v)].
Proof. reflexivity. Qed.

End DefineFacts.

(** ** The chunk planner *)

Section PlannerFacts.

(** Whenever some rule matches, the chunk is named by the earliest rule
    that matches. *)
Lemma first_match_earliest (rules : list (string * CacheGroup)) (m : string) :
  forall j gj,
    rules !! j = Some gj ->
    Regex.test (test gj.2) m = true ->
    exists i gi,
      i <= j /\
      rules !! i = Some gi /\
      Regex.test (test gi.2) m = true /\
      (forall k gk, k < i -> rules !! k = Some gk ->
                    Regex.test (test gk.2) m = false) /\
      first_match rules m = Some (name gi.2).
Proof.
  induction rules as [| [label g0] rules IH]; intros j gj Hj Hm.
  - discriminate Hj.
  - simpl. destruct (Regex.test (test g0) m) eqn:Hg0.
    + exists 0, (label, g0). repeat split; auto with lia.
    + destruct j as [| j]; simpl in Hj.
      { injection Hj as <-. simpl in Hm. congruence. }
      destruct (IH j gj Hj Hm) as (i & gi & Hij & Hi & Hmi & Hleast & Hfm).
      exists (S i), gi. repeat split; auto with lia.
      intros [| k] gk Hk Hgk; simpl in Hgk.
      * injection Hgk as <-. exact Hg0.
      * apply (Hleast k gk); [lia | exact Hgk].
Qed.

End PlannerFacts.

(** The configuration the function returns asks for a single runtime
    chunk, so the plan is the runtime chunk followed by the chunks of the
    modules. *)
Lemma single_runtime_chunk_plan
    (dir : string) (env argv : JsValue) cfg out
    (entryPoints : list (string * string)) (g : list (string * Module)) :
  run (module_exports dir env argv) = Returned cfg out ->
  plan cfg entryPoints g =
  inr ({| key := Runtime; members := [] |} :: module_chunks cfg entryPoints g).
Proof.
  intros Hcfg.
  pose proof (module_exports_run dir env argv) as Hrun.
  destruct (run (argv_env_NODE_ENV argv)) as [v o | e o];
    [| rewrite Hrun in Hcfg; discriminate].
  destruct Hrun as [line Hrun]. rewrite Hrun in Hcfg.
  injection Hcfg as <- _. reflexivity.
Qed.



(** ** The traversal *)

(** Discovery appends, once each, the targets that the table lacks. *)
Lemma discover_spec (targets queue : list string) (seen : gset string) :
  exists fresh,
    discover targets queue seen =
      ((queue ++ fresh)%list, seen ∪ list_to_set fresh) /\
    NoDup fresh /\
    (forall x, x ∈ fresh <-> x ∈ targets /\ x ∉ seen).
Proof.
  revert queue seen.
  induction targets as [| t rest IH]; intros queue seen; simpl.
  - exists []. rewrite app_nil_r.
    split; [f_equal; set_solver |].
    split; [constructor | intros x; set_solver].
  - destruct (decide (t ∈ seen)) as [Hin | Hnotin].
    + destruct (IH queue seen) as (fresh & Heq & Hnd & Hmem).
      exists fresh. split; [exact Heq |]. split; [exact Hnd |].
      intros x. rewrite Hmem. set_solver.
    + destruct (IH (queue ++ [t])%list ({[t]} ∪ seen))
        as (fresh & Heq & Hnd & Hmem).
      exists (t :: fresh). split; [| split].
      * rewrite Heq, <- app_assoc. simpl. f_equal. set_solver.
      * constructor; [| exact Hnd]. rewrite Hmem. set_solver.
      * intros x. rewrite elem_of_cons, Hmem. split.
        -- intros [-> | [Hx Hns]]; set_solver.
        -- intros [Hx Hns].
           destruct (decide (x = t)) as [-> | Hne]; [now left | right].
           set_solver.
Qed.

Section TraversalFacts.

Context {A : Type}.
Variable next : string -> BuildError + (A * list string).

(** One step keeps the invariant and only adds to the table. *)
Lemma invariant_step m rest seen visited a targets :
  invariant next (m :: rest) seen visited ->
  next m = inr (a, targets) ->
  let qs := discover targets rest seen in
  invariant next qs.1 qs.2 (visited ++ [(m, a)])%list /\ seen ⊆ qs.2.
Proof.
  intros (Hnd & Hseen & Hclosed) Hnext qs. subst qs.
  destruct (discover_spec targets rest seen) as (fresh & -> & Hfresh & Hmem).
  simpl. split; [| set_solver].
  assert (forall x, x ∈ fresh -> x ∉ seen) as Hnew by (intros x; rewrite Hmem; tauto).
  split; [| split].
  - assert (((visited ++ [(m, a)]).*1 ++ rest ++ fresh =
             (visited.*1 ++ m :: rest) ++ fresh)%list) as ->.
    { rewrite fmap_app. simpl. rewrite <- !app_assoc. reflexivity. }
    apply NoDup_app. split; [exact Hnd |]. split; [| exact Hfresh].
    intros x Hx Hxf. apply (Hnew x Hxf), Hseen.
    apply elem_of_app in Hx. exact Hx.
  - intros x. rewrite fmap_app. simpl.
    rewrite elem_of_union, elem_of_list_to_set, Hseen.
    rewrite !elem_of_app, elem_of_cons, list_elem_of_singleton.
    tauto.
  - intros x b Hx. apply elem_of_app in Hx as [Hx | Hx].
    + destruct (Hclosed x b Hx) as (ts & Hts & Hin).
      exists ts. split; [exact Hts |]. intros t Ht. set_solver.
    + apply list_elem_of_singleton in Hx. injection Hx as -> ->.
      exists targets. split; [exact Hnext |].
      intros t Ht. rewrite elem_of_union, elem_of_list_to_set, Hmem.
      destruct (decide (t ∈ seen)); tauto.
Qed.

(** A traversal that finishes leaves the invariant with an empty queue. *)
Lemma bfs_invariant fuel :
  forall queue seen visited res,
    invariant next queue seen visited ->
    bfs next fuel queue seen visited = Some (inr res) ->
    exists seen', invariant next [] seen' res /\ seen ⊆ seen'.
Proof.
  induction fuel as [| fuel IH]; intros queue seen visited res Hinv Hbfs;
    destruct queue as [| m rest]; simpl in Hbfs;
    try discriminate Hbfs.
  - injection Hbfs as <-. exists seen. split; [exact Hinv | set_solver].
  - injection Hbfs as <-. exists seen. split; [exact Hinv | set_solver].
  - destruct (next m) as [e | [a targets]] eqn:Hnext; [discriminate Hbfs |].
    destruct (invariant_step m rest seen visited a targets Hinv Hnext)
      as [Hinv' Hsub].
    destruct (IH _ _ _ _ Hinv' Hbfs) as (seen' & Hfinal & Hsub').
    exists seen'. split; [exact Hfinal | set_solver].
Qed.

(** The modules handled so far lie in any set that holds every module
    [next] accepts, which bounds their number. *)
Lemma visited_bounded (U : gset string) queue seen visited :
  (forall m a targets, next m = inr (a, targets) -> m ∈ U) ->
  invariant next queue seen visited ->
  length visited <= size U.
Proof.
  intros HU (Hnd & _ & Hclosed).
  apply NoDup_app in Hnd as (Hnd & _ & _).
  rewrite <- (length_fmap fst visited).
  rewrite <- (size_list_to_set (C := gset string) _ Hnd).
  apply subseteq_size. intros x Hx.
  apply elem_of_list_to_set, list_elem_of_fmap in Hx as ([y a] & -> & Hx).
  destruct (Hclosed y a Hx) as (ts & Hts & _). exact (HU _ _ _ Hts).
Qed.

(** With more fuel than modules left, the traversal does not run out. *)
Lemma bfs_total (U : gset string) fuel :
  (forall m a targets, next m = inr (a, targets) -> m ∈ U) ->
  forall queue seen visited,
    invariant next queue seen visited ->
    size U < fuel + length visited ->
    bfs next fuel queue seen visited <> None.
Proof.
  intros HU.
  induction fuel as [| fuel IH]; intros queue seen visited Hinv Hfuel;
    destruct queue as [| m rest]; simpl; try discriminate.
  - pose proof (visited_bounded U _ _ _ HU Hinv). lia.
  - destruct (next m) as [e | [a targets]] eqn:Hnext; [discriminate |].
    destruct (invariant_step m rest seen visited a targets Hinv Hnext)
      as [Hinv' _].
    apply IH; [exact Hinv' |]. rewrite length_app. simpl. lia.
Qed.

(** From modules that [next] accepts, when the imports of an accepted
    module are accepted too, the traversal meets no error. *)
Lemma bfs_no_error fuel :
  (forall m a targets t,
     next m = inr (a, targets) -> t ∈ targets ->
     exists b ts, next t = inr (b, ts)) ->
  forall queue seen visited e,
    Forall (fun m => exists b ts, next m = inr (b, ts)) queue ->
    bfs next fuel queue seen visited <> Some (inl e).
Proof.
  intros Hclosed.
  induction fuel as [| fuel IH]; intros queue seen visited e Hq;
    destruct queue as [| m rest]; simpl; try discriminate.
  apply Forall_cons in Hq as [(b & ts & Hm) Hrest].
  rewrite Hm. apply IH.
  destruct (discover_spec ts rest seen) as (fresh & -> & _ & Hmem).
  simpl. apply Forall_app. split; [exact Hrest |].
  apply Forall_forall. intros t Ht. apply Hmem in Ht as [Ht _].
  exact (Hclosed _ _ _ _ Hm Ht).
Qed.

Lemma invariant_initial (roots : list string) :
  let qs := discover roots [] ∅ in
  invariant next qs.1 qs.2 [] /\ forall r, r ∈ roots -> r ∈ qs.2.
Proof.
  destruct (discover_spec roots [] ∅) as (fresh & -> & Hnd & Hmem).
  simpl. split; [split; [exact Hnd | split] |].
  - intros x. set_solver.
  - intros x a Hx. inversion Hx.
  - intros r Hr. set_solver.
Qed.

(** What a finished traversal gives: each module once, the roots, and
    with a module the modules it imports. *)
Lemma traverse_result fuel roots res :
  traverse next fuel roots = Some (inr res) ->
  NoDup res.*1 /\
  (forall r, r ∈ roots -> r ∈ res.*1) /\
  (forall x a, (x, a) ∈ res ->
     exists targets, next x = inr (a, targets) /\
                     forall t, t ∈ targets -> t ∈ res.*1).
Proof.
  unfold traverse. intros Hbfs.
  destruct (invariant_initial roots) as [Hinv Hroots].
  destruct (bfs_invariant _ _ _ _ _ Hinv Hbfs)
    as (seen' & (Hnd & Hseen & Hclosed) & Hsub).
  rewrite app_nil_r in Hnd.
  assert (forall x, x ∈ seen' -> x ∈ res.*1) as Hin.
  { intros x Hx. apply Hseen in Hx as [Hx | Hx]; [exact Hx | inversion Hx]. }
  split; [exact Hnd |]. split.
  - intros r Hr. apply Hin, Hsub, Hroots, Hr.
  - intros x a Hx. destruct (Hclosed x a Hx) as (ts & Hts & Hall).
    exists ts. split; [exact Hts |]. intros t Ht. apply Hin, Hall, Ht.
Qed.

(** Every module reachable from a root has been handled. *)
Lemma traverse_complete fuel roots res r m :
  traverse next fuel roots = Some (inr res) ->
  r ∈ roots ->
  reach next r m ->
  m ∈ res.*1.
Proof.
  intros Hres Hr Hreach.
  destruct (traverse_result _ _ _ Hres) as (_ & Hroots & Hclosed).
  induction Hreach as [| m t _ IH (a & targets & Hnext & Ht)].
  - apply Hroots, Hr.
  - apply list_elem_of_fmap in IH as ([y b] & -> & Hy).
    destruct (Hclosed y b Hy) as (ts & Hts & Hall).
    simpl in Hnext. rewrite Hnext in Hts. injection Hts as _ <-.
    apply Hall, Ht.
Qed.

Lemma traverse_total (U : gset string) fuel roots :
  (forall m a targets, next m = inr (a, targets) -> m ∈ U) ->
  size U < fuel ->
  traverse next fuel roots <> None.
Proof.
  intros HU Hfuel. unfold traverse.
  destruct (invariant_initial roots) as [Hinv _].
  apply (bfs_total U); [exact HU | exact Hinv | simpl; lia].
Qed.

End TraversalFacts.

(** ** The dependency graph builder *)

Section BuilderFacts.

Variable files : gmap string (string * list string).
Variable resolve : string -> string -> option string.
Variable transform : string -> string -> option string.

Abbreviation load := (load files resolve transform).

Lemma load_inr m md targets :
  load m = inr (md, targets) ->
  m ∈ dom files /\ resolved_imports md = targets.
Proof.
  unfold Pipeline.load. intros H.
  destruct (files !! m) as [[raw specs] |] eqn:Hm; [| discriminate H].
  destruct (transform m raw); [| discriminate H].
  destruct (resolve_all resolve m specs); [discriminate H |].
  injection H as <- <-. split; [| reflexivity].
  apply elem_of_dom. eauto.
Qed.

(** The build does not run out of steps: it gives a graph or an error. *)
Lemma build_total (entryPoints : list (string * string)) :
  build files resolve transform entryPoints <> None.
Proof.
  unfold build. apply (traverse_total _ (dom files)).
  - intros m a targets H. apply (load_inr _ _ _ H).
  - rewrite size_dom. lia.
Qed.

Lemma build_graph (entryPoints : list (string * string)) g :
  build files resolve transform entryPoints = Some (inr g) ->
  closed_graph g /\
  (forall r, r ∈ entryPoints.*2 -> r ∈ g.*1) /\
  (forall x md, (x, md) ∈ g ->
     load x = inr (md, resolved_imports md)).
Proof.
  unfold build. intros Hbuild.
  destruct (traverse_result _ _ _ _ Hbuild) as (Hnd & Hroots & Hclosed).
  split; [split; [exact Hnd |] |]; [| split; [exact Hroots |]].
  - intros x md t Hx Ht.
    destruct (Hclosed x md Hx) as (ts & Hload & Hall).
    apply load_inr in Hload as [_ <-]. apply Hall, Ht.
  - intros x md Hx.
    destruct (Hclosed x md Hx) as (ts & Hload & _).
    destruct (load_inr _ _ _ Hload) as [_ <-]. exact Hload.
Qed.

End BuilderFacts.

Section GraphFacts.

Variable g : list (string * Module).
Hypothesis g_closed : closed_graph g.

Lemma follow_member x md :
  (x, md) ∈ g -> follow g x = inr (tt, resolved_imports md).
Proof.
  intros Hx. unfold follow, module_table.
  apply (elem_of_list_to_map (M := gmap string)) in Hx as ->;
    [reflexivity | apply g_closed].
Qed.

Lemma follow_inr x a targets :
  follow g x = inr (a, targets) ->
  exists md, (x, md) ∈ g /\ resolved_imports md = targets.
Proof.
  unfold follow, module_table. intros H.
  destruct (list_to_map g !! x) as [md |] eqn:Hx; [| discriminate H].
  injection H as _ <-. exists md. split; [| reflexivity].
  apply (elem_of_list_to_map_2 (M := gmap string)) in Hx. exact Hx.
Qed.

(** Following the edges of a closed graph from one of its modules gives
    every module reachable from it. *)
Lemma reachable_from_complete root m :
  root ∈ g.*1 ->
  reach (follow g) root m ->
  m ∈ reachable_from g root.
Proof.
  intros Hroot Hreach. unfold reachable_from.
  destruct (traverse (follow g) (S (length g)) [root])
    as [[e | visited] |] eqn:Htr.
  - exfalso. revert Htr. unfold traverse. apply bfs_no_error.
    + intros x a targets t Hx Ht.
      apply follow_inr in Hx as (md & Hx & <-).
      destruct g_closed as [_ Hedges].
      pose proof (Hedges x md t Hx Ht) as Hin.
      apply list_elem_of_fmap in Hin as ([y md'] & -> & Hy).
      simpl. rewrite (follow_member _ _ Hy). eauto.
    + destruct (discover_spec [root] [] ∅) as (fresh & -> & _ & Hmem).
      simpl. apply Forall_forall. intros t Ht.
      apply Hmem in Ht as [Ht _]. apply list_elem_of_singleton in Ht as ->.
      apply list_elem_of_fmap in Hroot as ([y md'] & -> & Hy).
      simpl. rewrite (follow_member _ _ Hy). eauto.
  - apply (traverse_complete _ _ _ _ root m Htr);
      [apply list_elem_of_singleton; reflexivity | exact Hreach].
  - exfalso. revert Htr.
    apply (traverse_total _ (dom (module_table g))).
    + intros x a targets Hx. apply follow_inr in Hx as (md & Hx & _).
      unfold module_table. rewrite dom_list_to_map_L.
      apply elem_of_list_to_set, list_elem_of_fmap. exists (x, md). eauto.
    + rewrite size_dom. unfold module_table.
      rewrite map_size_list_to_map by apply g_closed. lia.
Qed.

End GraphFacts.

Section BuildFacts.

Variable files : gmap string (string * list string).
Variable resolve : string -> string -> option string.
Variable transform : string -> string -> option string.
Variable entryPoints : list (string * string).
Variable g : list (string * Module).
Hypothesis g_built : build files resolve transform entryPoints = Some (inr g).

Abbreviation load := (load files resolve transform).

(** What is reachable in the source tree from a module of the graph is
    reachable along the edges of the graph. *)
Lemma reach_in_graph root m :
  root ∈ g.*1 ->
  reach load root m ->
  m ∈ g.*1 /\ reach (follow g) root m.
Proof.
  destruct (build_graph _ _ _ _ _ g_built) as (Hclosed & _ & Hload).
  intros Hroot Hreach.
  induction Hreach as [| x t _ [Hx IH] (a & targets & Hnext & Ht)].
  - split; [exact Hroot | constructor].
  - apply list_elem_of_fmap in Hx as ([y md] & -> & Hy). simpl in *.
    rewrite (Hload y md Hy) in Hnext. injection Hnext as _ <-.
    split.
    + apply (proj2 Hclosed y md t Hy Ht).
    + apply (reach_edge _ _ y t IH).
      exists tt, (resolved_imports md).
      split; [apply (follow_member g Hclosed _ _ Hy) | exact Ht].
Qed.

(** An entry point owns every module reachable from its root. *)
Lemma owners_complete e root m :
  (e, root) ∈ entryPoints ->
  reach load root m ->
  (e, root) ∈ filter (fun e => m ∈ reachable_from g e.2) entryPoints.
Proof.
  destruct (build_graph _ _ _ _ _ g_built) as (Hclosed & Hroots & _).
  intros He Hreach. apply list_elem_of_filter. split; [| exact He].
  assert (root ∈ g.*1) as Hroot.
  { apply Hroots, list_elem_of_fmap. exists (e, root). eauto. }
  apply (reachable_from_complete g Hclosed); [exact Hroot |].
  apply reach_in_graph; assumption.
Qed.

End BuildFacts.

Lemma no_element_for_absent_key {V : Type} (l : list (string * V)) m :
  m ∉ l.*1 -> filter (fun x => x.1 = m) l = [].
Proof.
  induction l as [| [k v] l IH]; intros Hm; [reflexivity |].
  simpl in Hm. apply not_elem_of_cons in Hm as [Hne Hm].
  rewrite filter_cons_False by (simpl; congruence). apply IH, Hm.
Qed.

(** A key that occurs in a list without repeated keys heads exactly one
    element. *)
Lemma one_element_per_key {V : Type} (l : list (string * V)) (m : string) :
  NoDup l.*1 -> m ∈ l.*1 -> length (filter (fun x => x.1 = m) l) = 1.
Proof.
  induction l as [| [k v] l IH]; intros Hnd Hin; simpl in *.
  - inversion Hin.
  - apply NoDup_cons in Hnd as [Hk Hnd].
    destruct (decide (k = m)) as [-> | Hne].
    + rewrite filter_cons_True by reflexivity.
      rewrite (no_element_for_absent_key l m Hk). reflexivity.
    + rewrite filter_cons_False by (simpl; congruence).
      apply IH; [exact Hnd |].
      apply elem_of_cons in Hin as [Heq | Hin]; [congruence | exact Hin].
Qed.

Section PartitionFacts.

Variable cfg : Config.
Variable entryPoints : list (string * string).
Variable g : list (string * Module).

(** The chunk of a module of the graph. *)
Lemma module_chunk_member (m : string) :
  m ∈ g.*1 ->
  let c := {| key := chunk_key cfg entryPoints g m;
              members := filter (fun x => chunk_key cfg entryPoints g x =
                                          chunk_key cfg entryPoints g m) g.*1 |} in
  c ∈ module_chunks cfg entryPoints g /\ m ∈ members c.
Proof.
  intros Hm c. split.
  - unfold module_chunks. apply list_elem_of_fmap.
    exists (chunk_key cfg entryPoints g m). split; [reflexivity |].
    apply elem_of_remove_dups, list_elem_of_fmap. eauto.
  - simpl. apply list_elem_of_filter. split; [reflexivity | exact Hm].
Qed.

(** A module is a member of no other chunk. *)
Lemma module_chunk_unique (m : string) (c : Chunk) :
  c ∈ module_chunks cfg entryPoints g ->
  m ∈ members c ->
  c = {| key := chunk_key cfg entryPoints g m;
         members := filter (fun x => chunk_key cfg entryPoints g x =
                                     chunk_key cfg entryPoints g m) g.*1 |}.
Proof.
  unfold module_chunks. intros Hc Hm.
  apply list_elem_of_fmap in Hc as (k & -> & _). simpl in Hm.
  apply list_elem_of_filter in Hm as [<- _]. reflexivity.
Qed.

End PartitionFacts.

(** What a loaded module holds: the raw content and the declared imports
    of the source tree, and the output of the transform chain on that raw
    content. *)
Lemma load_inr_full
    (files : gmap string (string * list string))
    (resolve : string -> string -> option string)
    (transform : string -> string -> option string)
    (m : string) (md : Module) (targets : list string) :
  load files resolve transform m = inr (md, targets) ->
  exists raw specs,
    files !! m = Some (raw, specs) /\
    raw_content md = raw /\
    declared_imports md = specs /\
    transform m raw = Some (transformed md).
Proof.
  unfold load. intros H.
  destruct (files !! m) as [[raw specs] |]; [| discriminate H].
  destruct (transform m raw) as [output |] eqn:Hout; [| discriminate H].
  destruct (resolve_all resolve m specs); [discriminate H |].
  injection H as <- _. exists raw, specs. auto.
Qed.

(** In a list without repeated keys, the elements with a key are the one
    element that has it. *)
Lemma only_element_for_key {V : Type} (l : list (string * V)) m v :
  NoDup l.*1 -> (m, v) ∈ l -> filter (fun x => x.1 = m) l = [(m, v)].
Proof.
  induction l as [| [k v0] l IH]; intros Hnd Hin; simpl in *.
  - inversion Hin.
  - apply NoDup_cons in Hnd as [Hk Hnd].
    apply elem_of_cons in Hin as [Heq | Hin].
    + injection Heq as <- <-.
      rewrite filter_cons_True by reflexivity.
      rewrite (no_element_for_absent_key l m Hk). reflexivity.
    + assert (k <> m) as Hne.
      { intros ->. apply Hk, list_elem_of_fmap. exists (m, v). eauto. }
      rewrite filter_cons_False by (simpl; congruence).
      apply IH; assumption.
Qed.

(** Of the chunks made from a list of distinct keys, those that satisfy a
    property that singles out one key are the one chunk of that key. *)
Lemma filter_one_key (mk : ChunkKey -> Chunk) (P : Chunk -> Prop)
    `{forall c, Decision (P c)} (k0 : ChunkKey) (keys : list ChunkKey) :
  (forall k, P (mk k) <-> k = k0) ->
  NoDup keys -> k0 ∈ keys ->
  filter P (mk <$> keys) = [mk k0].
Proof.
  intros HP.
  assert (forall l, k0 ∉ l -> filter P (mk <$> l) = []) as Hnone.
  { induction l as [| a l IH]; intros Hk; [reflexivity |].
    apply not_elem_of_cons in Hk as [Hne Hk]. rewrite fmap_cons.
    rewrite filter_cons_False by (rewrite HP; congruence). apply IH, Hk. }
  induction keys as [| a keys IH]; intros Hnd Hin; [inversion Hin |].
  apply NoDup_cons in Hnd as [Ha Hnd]. rewrite fmap_cons.
  destruct (decide (a = k0)) as [-> | Hne].
  - rewrite filter_cons_True by (apply HP; reflexivity).
    rewrite (Hnone keys Ha). reflexivity.
  - rewrite filter_cons_False by (rewrite HP; exact Hne).
    apply elem_of_cons in Hin as [Heq | Hin]; [congruence |].
    apply IH; assumption.
Qed.



(** * Further properties of the configuration function *)

(** ** Errors and the console *)

(** Reading [argv.env.NODE_ENV] goes through [argv.env]. *)
Lemma argv_env_NODE_ENV_unfold (argv e : JsValue) :
  run (get argv "env") = Returned e [] ->
  run (argv_env_NODE_ENV argv) = run (get e "NODE_ENV").
Proof.
  unfold run, argv_env_NODE_ENV, mbind, eff_bind, bind.
  intros ->. reflexivity.
Qed.

Lemma argv_nullish_throws (dir : string) (env argv : JsValue) :
  argv = JUndefined \/ argv = JNull ->
  run (module_exports dir env argv) = Threw (CannotReadProperty "env" argv) [].
Proof. intros [-> | ->]; reflexivity. Qed.

Lemma env_nullish_throws (dir : string) (env argv e : JsValue) :
  run (get argv "env") = Returned e [] ->
  e = JUndefined \/ e = JNull ->
  run (module_exports dir env argv) =
  Threw (CannotReadProperty "NODE_ENV" e) [].
Proof.
  intros He Hnull.
  pose proof (module_exports_run dir env argv) as Hrun.
  rewrite (argv_env_NODE_ENV_unfold argv e He) in Hrun.
  destruct Hnull as [-> | ->]; exact Hrun.
Qed.

Lemma env_defined_returns (dir : string) (env argv e : JsValue) :
  run (get argv "env") = Returned e [] ->
  e <> JUndefined -> e <> JNull ->
  exists v line,
    run (get e "NODE_ENV") = Returned v [] /\
    run (module_exports dir env argv) =
    Returned (config_literal dir (strict_neq_str v "production") v) [line].
Proof.
  intros He Hu Hn.
  pose proof (module_exports_run dir env argv) as Hrun.
  rewrite (argv_env_NODE_ENV_unfold argv e He) in Hrun.
  destruct e as [| | b | s | props]; try congruence; simpl in Hrun;
    destruct Hrun as [line Hrun]; eexists _, line;
    (split; [reflexivity | exact Hrun]).
Qed.

(** X1: the function returns a configuration exactly when [argv.env] can be
    read and is neither [undefined] nor [null].  When [argv] itself is
    [undefined] or [null] the error is that of reading [env] off it; when
    [argv.env] is [undefined] or [null] it is that of reading [NODE_ENV]
    off it; either way nothing has been logged. *)
Theorem returns_iff_env_defined (dir : string) (env argv : JsValue) :
  ((exists cfg out, run (module_exports dir env argv) = Returned cfg out) <->
   (exists e, run (get argv "env") = Returned e [] /\
              e <> JUndefined /\ e <> JNull)) /\
  (argv = JUndefined \/ argv = JNull ->
   run (module_exports dir env argv) =
   Threw (CannotReadProperty "env" argv) []) /\
  (forall e,
     run (get argv "env") = Returned e [] ->
     e = JUndefined \/ e = JNull ->
     run (module_exports dir env argv) =
     Threw (CannotReadProperty "NODE_ENV" e) []).
Proof.
  split; [| split].
  - split.
    + intros (cfg & out & Hcfg).
      destruct argv as [| | b | s | props];
        try (rewrite argv_nullish_throws in Hcfg by auto; discriminate Hcfg).
      * exfalso.
        rewrite (env_nullish_throws dir env (JBool b) JUndefined) in Hcfg;
          [discriminate Hcfg | reflexivity | auto].
      * exfalso.
        rewrite (env_nullish_throws dir env (JString s) JUndefined) in Hcfg;
          [discriminate Hcfg | reflexivity | auto].
      * exists (lookup_prop "env" props). split; [reflexivity |].
        split; intros Heq;
          rewrite (env_nullish_throws dir env (JObject props)
                     (lookup_prop "env" props)) in Hcfg;
          try reflexivity; try discriminate Hcfg; auto.
    + intros (e & He & Hu & Hn).
      destruct (env_defined_returns dir env argv e He Hu Hn)
        as (v & line & _ & Hrun).
      eauto.
  - apply argv_nullish_throws.
  - apply env_nullish_throws.
Qed.

(** From any console: a successful call appends one line, a failed one
    leaves the console as it was. *)
Lemma module_exports_from (dir : string) (env argv : JsValue) (out0 : Console) :
  (exists v mode,
     run (argv_env_NODE_ENV argv) = Returned v [] /\
     run (get argv "mode") = Returned mode [] /\
     module_exports dir env argv out0 =
     Returned (config_literal dir (strict_neq_str v "production") v)
       (out0 ++
        [if strict_eq_str mode "development" then "webpack is in dev mode"
         else if strict_eq_str mode "production" then
           "webpack is in production mode"
         else "webpack has no mode defined"])%list) \/
  (exists e,
     run (argv_env_NODE_ENV argv) = Threw e [] /\
     module_exports dir env argv out0 = Threw e out0).
Proof.
  destruct (argv_env_NODE_ENV_pure argv) as [[v Hv] | [e He]].
  - left.
    destruct (get_mode_returns argv v [] [] (Hv [])) as [mode Hmode].
    exists v, mode. split; [apply Hv |]. split; [apply Hmode |].
    unfold module_exports, mbind, eff_bind, bind.
    rewrite Hv, Hmode.
    destruct (strict_eq_str mode "development"); simpl.
    + rewrite Hv. reflexivity.
    + rewrite Hmode.
      destruct (strict_eq_str mode "production"); simpl; rewrite Hv;
        reflexivity.
  - right. exists e. split; [apply He |].
    unfold module_exports, mbind, eff_bind, bind. rewrite He. reflexivity.
Qed.

(** X2: whatever the console holds when the function is called, a call
    that returns has appended exactly one line to it, one of the three
    messages, and a call that throws has left it unchanged. *)
Theorem console_grows_by_one_line
    (dir : string) (env argv : JsValue) (out0 : Console) :
  match module_exports dir env argv out0 with
  | Returned _ out =>
      exists line,
        out = (out0 ++ [line])%list /\
        (line = "webpack is in dev mode" \/
         line = "webpack is in production mode" \/
         line = "webpack has no mode defined")
  | Threw _ out => out = out0
  end.
Proof.
  destruct (module_exports_from dir env argv out0)
    as [(v & mode & _ & _ & ->) | (e & _ & ->)]; [| reflexivity].
  eexists. split; [reflexivity |].
  destruct (strict_eq_str mode "development"); [auto |].
  destruct (strict_eq_str mode "production"); auto.
Qed.

(** ** The two modes *)

Lemma strict_eq_str_spec (v : JsValue) (s : string) :
  strict_eq_str v s = true <-> v = JString s.
Proof.
  destruct v as [| | b | t | props]; simpl;
    try (split; [discriminate | discriminate]).
  rewrite String.eqb_eq. split; [intros -> | intros [= ->]]; reflexivity.
Qed.

Lemma strict_eq_str_false (v : JsValue) (s : string) :
  strict_eq_str v s = false <-> v <> JString s.
Proof.
  rewrite <- strict_eq_str_spec.
  destruct (strict_eq_str v s); split; congruence.
Qed.

Lemma devMode_spec (v : JsValue) :
  strict_neq_str v "production" = false <-> v = JString "production".
Proof.
  unfold strict_neq_str. rewrite <- strict_eq_str_spec.
  destruct (strict_eq_str v "production"); simpl; split; congruence.
Qed.

(** X3: the line logged by a call that returns follows [argv.mode] alone:
    the development line exactly for the string development, the
    production line exactly for the string production, and the line about
    no mode for every other value, [undefined] included. *)
Theorem log_line_follows_argv_mode
    (dir : string) (env argv mode : JsValue) cfg out :
  run (module_exports dir env argv) = Returned cfg out ->
  run (get argv "mode") = Returned mode [] ->
  (mode = JString "development" /\ out = ["webpack is in dev mode"]) \/
  (mode = JString "production" /\ out = ["webpack is in production mode"]) \/
  (mode <> JString "development" /\ mode <> JString "production" /\
   out = ["webpack has no mode defined"]).
Proof.
  intros Hcfg Hmode.
  destruct (module_exports_from dir env argv [])
    as [(v & mode' & _ & Hmode' & Hrun) | (e & _ & Hrun)];
    unfold run in Hcfg; rewrite Hrun in Hcfg; [| discriminate Hcfg].
  rewrite Hmode in Hmode'. injection Hmode' as <-.
  injection Hcfg as _ <-. simpl.
  destruct (strict_eq_str mode "development") eqn:Hdev.
  - left. split; [apply strict_eq_str_spec, Hdev | reflexivity].
  - apply strict_eq_str_false in Hdev.
    destruct (strict_eq_str mode "production") eqn:Hprod.
    + right; left. split; [apply strict_eq_str_spec, Hprod | reflexivity].
    + apply strict_eq_str_false in Hprod. right; right. auto.
Qed.

Lemma log_line_follows_argv_mode_witness :
  (JUndefined = JString "development" /\
   ["webpack has no mode defined"] = ["webpack is in dev mode"]) \/
  (JUndefined = JString "production" /\
   ["webpack has no mode defined"] = ["webpack is in production mode"]) \/
  (JUndefined <> JString "development" /\
   JUndefined <> JString "production" /\
   ["webpack has no mode defined"] = ["webpack has no mode defined"]).
Proof.
  apply (log_line_follows_argv_mode "/app" JUndefined
           (JObject [("env", JObject [("NODE_ENV", JString "production")])])
           JUndefined
           (config_literal "/app" false (JString "production")));
    reflexivity.
Defined.

(** X4: the logged mode and the configured mode can disagree.  With
    [argv.mode] set to production and [NODE_ENV] anything but the string
    production, the function logs the production line and returns the
    development configuration; with [argv.mode] set to development and
    [NODE_ENV] set to production, it logs the development line and returns
    the production configuration. *)
Theorem logged_mode_is_not_configured_mode
    (dir : string) (env argv v mode : JsValue) :
  run (argv_env_NODE_ENV argv) = Returned v [] ->
  run (get argv "mode") = Returned mode [] ->
  (mode = JString "production" -> v <> JString "production" ->
   exists cfg,
     run (module_exports dir env argv) =
       Returned cfg ["webpack is in production mode"] /\
     filename (output cfg) = "[name].js" /\
     devtool cfg = "source-map" /\
     Rules.hmr_flags cfg = [true]) /\
  (mode = JString "development" -> v = JString "production" ->
   exists cfg,
     run (module_exports dir env argv) =
       Returned cfg ["webpack is in dev mode"] /\
     filename (output cfg) = "[name].[contenthash].js" /\
     devtool cfg = "cheap-source-map" /\
     Rules.hmr_flags cfg = [false]).
Proof.
  intros Hv Hmode. split.
  - intros -> Hne.
    rewrite (module_exports_returns dir env argv v _ Hv Hmode).
    assert (strict_neq_str v "production" = true) as ->.
    { destruct (strict_neq_str v "production") eqn:Hd; [reflexivity |].
      apply devMode_spec in Hd. contradiction. }
    eexists. split; [reflexivity |]. repeat split.
  - intros -> ->.
    rewrite (module_exports_returns dir env argv _ _ Hv Hmode).
    eexists. split; [reflexivity |]. repeat split.
Qed.

Lemma logged_mode_is_not_configured_mode_witness :
  exists cfg,
    run (module_exports "/app" JUndefined
           (JObject [("mode", JString "production");
                     ("env", JObject [("NODE_ENV", JString "staging")])])) =
      Returned cfg ["webpack is in production mode"] /\
    filename (output cfg) = "[name].js" /\
    devtool cfg = "source-map" /\
    Rules.hmr_flags cfg = [true].
Proof.
  apply (proj1 (logged_mode_is_not_configured_mode "/app" JUndefined
                  (JObject [("mode", JString "production");
                            ("env", JObject [("NODE_ENV", JString "staging")])])
                  (JString "staging") (JString "production")
                  eq_refl eq_refl));
    [reflexivity | discriminate].
Defined.

(** X5: a returned configuration has one of two shapes, chosen by whether
    [NODE_ENV] is the string production, compared strictly: hashed script
    and style templates, cheap source maps and no hot reloading of styles
    for that string; plain templates, full source maps and hot reloading
    for every other value ([undefined], [null], booleans, objects and every
    other string, such as Production). *)
Theorem production_only_for_the_string
    (dir : string) (env argv v : JsValue) cfg out :
  run (argv_env_NODE_ENV argv) = Returned v [] ->
  run (module_exports dir env argv) = Returned cfg out ->
  (v = JString "production" /\
   filename (output cfg) = "[name].[contenthash].js" /\
   devtool cfg = "cheap-source-map" /\
   Rules.hmr_flags cfg = [false] /\
   Naming.mini_css_templates (plugins cfg) =
     Some ("[name].[contenthash].css", "[id].[contenthash].css")) \/
  (v <> JString "production" /\
   filename (output cfg) = "[name].js" /\
   devtool cfg = "source-map" /\
   Rules.hmr_flags cfg = [true] /\
   Naming.mini_css_templates (plugins cfg) = Some ("[name].css", "[id].css")).
Proof.
  intros Hv Hcfg.
  rewrite (module_exports_config dir env argv v cfg out Hv Hcfg).
  destruct (strict_neq_str v "production") eqn:Hd.
  - right. split; [| repeat split].
    intros Heq. apply devMode_spec in Heq. congruence.
  - left. split; [apply devMode_spec, Hd | repeat split].
Qed.

Lemma production_only_for_the_string_witness :
  filename (output (config_literal "/app" true (JString "Production"))) =
  "[name].js".
Proof.
  destruct (production_only_for_the_string "/app" JUndefined
              (JObject [("env", JObject [("NODE_ENV", JString "Production")])])
              (JString "Production") _ _ eq_refl eq_refl)
    as [(Heq & _) | (_ & Hname & _)].
  - discriminate Heq.
  - exact Hname.
Defined.

Lemma stringify_absent_iff (v : JsValue) :
  Json.stringify v = None <-> v = JUndefined.
Proof.
  destruct v as [| | b | s | props]; simpl; split; congruence.
Qed.

Lemma returned_is_literal (dir : string) (env argv : JsValue) cfg out :
  run (module_exports dir env argv) = Returned cfg out ->
  exists devMode v, cfg = config_literal dir devMode v.
Proof.
  intros Hcfg.
  pose proof (module_exports_run dir env argv) as Hrun.
  destruct (run (argv_env_NODE_ENV argv)) as [v o | e o];
    [| rewrite Hrun in Hcfg; discriminate Hcfg].
  destruct Hrun as [line Hrun]. rewrite Hrun in Hcfg.
  injection Hcfg as <- _. eauto.
Qed.

(** X6: a returned configuration gives the define plugin one definition,
    that of [process.env.NODE_ENV]; its value is absent exactly when
    [NODE_ENV] is [undefined] (the key is missing from [argv.env], or
    [argv.env] is a primitive), and the configuration is then the
    development one. *)
Theorem define_value_absent_iff_undefined
    (dir : string) (env argv v : JsValue) cfg out :
  run (argv_env_NODE_ENV argv) = Returned v [] ->
  run (module_exports dir env argv) = Returned cfg out ->
  exists d,
    Define.definitions_of (plugins cfg) = [("process.env.NODE_ENV", d)] /\
    (d = None <-> v = JUndefined) /\
    (v = JUndefined -> filename (output cfg) = "[name].js").
Proof.
  intros Hv Hcfg.
  rewrite (module_exports_config dir env argv v cfg out Hv Hcfg).
  exists (Json.stringify v). split; [reflexivity |].
  split; [apply stringify_absent_iff |]. intros ->. reflexivity.
Qed.

Lemma define_value_absent_iff_undefined_witness :
  exists d,
    Define.definitions_of
      (plugins (config_literal "/app" true JUndefined)) =
      [("process.env.NODE_ENV", d)] /\
    (d = None <-> JUndefined = JUndefined) /\
    (JUndefined = JUndefined ->
     filename (output (config_literal "/app" true JUndefined)) = "[name].js").
Proof.
  apply (define_value_absent_iff_undefined "/app" JUndefined
           (JObject [("env", JObject [("mode", JString "production")])])
           JUndefined _ ["webpack has no mode defined"]);
    reflexivity.
Defined.

(** X7: two returned configurations whose define plugins were given the
    same definitions come from the same [NODE_ENV], when it is a primitive
    value: the JSON text keeps strings, booleans, [null] and [undefined]
    apart. *)
Theorem definitions_determine_NODE_ENV
    (dir : string) (env1 argv1 env2 argv2 v1 v2 : JsValue)
    cfg1 out1 cfg2 out2 :
  run (argv_env_NODE_ENV argv1) = Returned v1 [] ->
  run (argv_env_NODE_ENV argv2) = Returned v2 [] ->
  run (module_exports dir env1 argv1) = Returned cfg1 out1 ->
  run (module_exports dir env2 argv2) = Returned cfg2 out2 ->
  is_primitive v1 = true ->
  is_primitive v2 = true ->
  Define.definitions_of (plugins cfg1) = Define.definitions_of (plugins cfg2) ->
  v1 = v2.
Proof.
  intros Hv1 Hv2 Hcfg1 Hcfg2 Hp1 Hp2.
  rewrite (module_exports_config _ _ _ _ _ _ Hv1 Hcfg1).
  rewrite (module_exports_config _ _ _ _ _ _ Hv2 Hcfg2).
  rewrite !definitions_of_literal. intros [= Heq].
  pose proof (literal_roundtrip v1 Hp1) as H1.
  pose proof (literal_roundtrip v2 Hp2) as H2.
  rewrite Heq in H1. congruence.
Qed.

Lemma definitions_determine_NODE_ENV_witness :
  JString "production" = JString "production".
Proof.
  apply (definitions_determine_NODE_ENV "/app"
           JUndefined
           (JObject [("env", JObject [("NODE_ENV", JString "production")])])
           JNull
           (JObject [("mode", JString "development");
                     ("env", JObject [("NODE_ENV", JString "production")])])
           (JString "production") (JString "production")
           (config_literal "/app" false (JString "production"))
           ["webpack has no mode defined"]
           (config_literal "/app" false (JString "production"))
           ["webpack is in dev mode"]);
    reflexivity.
Defined.

(** X8: what does not depend on the call.  Any two returned configurations
    have the same entry, output directory, development server options and
    optimization block (so the same cache groups and runtime chunk), the
    same tests and exclusions in their rules, and the same clean, HTML and
    copy plugins. *)
Theorem splitting_and_rules_ignore_the_call
    (dir : string) (env1 argv1 env2 argv2 : JsValue) cfg1 out1 cfg2 out2 :
  run (module_exports dir env1 argv1) = Returned cfg1 out1 ->
  run (module_exports dir env2 argv2) = Returned cfg2 out2 ->
  entry cfg1 = entry cfg2 /\
  path (output cfg1) = path (output cfg2) /\
  devServer cfg1 = devServer cfg2 /\
  optimization cfg1 = optimization cfg2 /\
  map rule_test (module_rules cfg1) = map rule_test (module_rules cfg2) /\
  map exclude (module_rules cfg1) = map exclude (module_rules cfg2) /\
  Rules.fixed_plugins cfg1 = Rules.fixed_plugins cfg2.
Proof.
  intros Hcfg1 Hcfg2.
  destruct (returned_is_literal _ _ _ _ _ Hcfg1) as (b1 & v1 & ->).
  destruct (returned_is_literal _ _ _ _ _ Hcfg2) as (b2 & v2 & ->).
  repeat split.
Qed.

Lemma splitting_and_rules_ignore_the_call_witness :
  optimization (config_literal "/app" false (JString "production")) =
  optimization (config_literal "/app" true JUndefined).
Proof.
  pose proof (splitting_and_rules_ignore_the_call "/app"
    JUndefined
    (JObject [("env", JObject [("NODE_ENV", JString "production")])])
    JUndefined
    (JObject [("env", JBool true)])
    (config_literal "/app" false (JString "production"))
    ["webpack has no mode defined"]
    (config_literal "/app" true JUndefined)
    ["webpack has no mode defined"]
    eq_refl eq_refl) as (_ & _ & _ & H & _).
  exact H.
Defined.

(** ** The regular expressions of the rules *)

Section RegexFacts.

Import Regex.

(** A run of plain characters matches the text that starts with them. *)
Lemma match_here_chars (lit : string) (r : Regex.t) (s : string) :
  match_here (chars lit ++ r)%list s = true <->
  exists rest, s = lit ++ rest /\ match_here r rest = true.
Proof.
  revert s. induction lit as [| c l IH]; intros s.
  - change (chars "" ++ r)%list with r. split.
    + intros H. exists s. split; [reflexivity | exact H].
    + intros (rest & -> & H). exact H.
  - change (chars (String c l) ++ r)%list with (Chr c :: (chars l ++ r))%list.
    destruct s as [| d s']; simpl.
    + split; [discriminate |].
      intros (rest & Heq & _).
      change (String c l ++ rest) with (String c (l ++ rest)) in Heq.
      discriminate Heq.
    + rewrite andb_true_iff, Ascii.eqb_eq, IH. split.
      * intros [-> (rest & -> & H)]. exists rest. split; [reflexivity | exact H].
      * intros (rest & Heq & H).
        change (String c l ++ rest) with (String c (l ++ rest)) in Heq.
        injection Heq as -> ->. split; [reflexivity | eauto].
Qed.

Lemma match_here_end (s : string) : match_here [End_] s = true <-> s = "".
Proof. destruct s; simpl; split; congruence. Qed.

(** [test] finds a match at some position. *)
Lemma test_spec (r : Regex.t) (s : string) :
  test r s = true <->
  exists before rest, s = before ++ rest /\ match_here r rest = true.
Proof.
  induction s as [| c s' IH].
  - change (test r "") with (match_here r "" || false).
    rewrite orb_false_r. split.
    + intros H. exists "", "". split; [reflexivity | exact H].
    + intros (before & rest & Heq & H).
      destruct before as [| d before'].
      * change ("" ++ rest) with rest in Heq. subst rest. exact H.
      * change (String d before' ++ rest)
          with (String d (before' ++ rest)) in Heq.
        discriminate Heq.
  - change (test r (String c s'))
      with (match_here r (String c s') || test r s').
    rewrite orb_true_iff, IH. split.
    + intros [H | (before & rest & -> & H)].
      * exists "", (String c s'). split; [reflexivity | exact H].
      * exists (String c before), rest. split; [reflexivity | exact H].
    + intros (before & rest & Heq & H).
      destruct before as [| d before'].
      * change ("" ++ rest) with rest in Heq. subst rest. left. exact H.
      * change (String d before' ++ rest)
          with (String d (before' ++ rest)) in Heq.
        injection Heq as -> ->. right. eauto.
Qed.

(** A literal followed by the end anchor accepts the texts that end with
    the literal. *)
Lemma test_suffix (lit s : string) :
  test (chars lit ++ [End_])%list s = true <-> Rules.ends_with s lit.
Proof.
  rewrite test_spec. unfold Rules.ends_with. split.
  - intros (before & rest & -> & H).
    apply match_here_chars in H as (rest' & -> & Hend).
    apply match_here_end in Hend as ->.
    exists before. rewrite append_nil_r. reflexivity.
  - intros (before & ->). exists before, lit. split; [reflexivity |].
    apply match_here_chars. exists "".
    split; [now rewrite append_nil_r | reflexivity].
Qed.

(** A literal alone accepts the texts that contain it. *)
Lemma test_substring (lit s : string) :
  test (chars lit) s = true <-> Rules.contains s lit.
Proof.
  rewrite test_spec. unfold Rules.contains.
  rewrite <- (app_nil_r (chars lit)). split.
  - intros (before & rest & -> & H).
    apply match_here_chars in H as (after & -> & _). eauto.
  - intros (before & after & ->). exists before, (lit ++ after).
    split; [reflexivity |]. apply match_here_chars. eauto.
Qed.

(** The vendor test accepts only texts that contain [node_modules]. *)
Lemma vendor_test_contains (s : string) :
  test (sep :: chars "node_modules" ++ [sep])%list s = true ->
  Rules.contains s "node_modules".
Proof.
  intros H. apply test_spec in H as (before & rest & -> & H).
  destruct rest as [| d rest1]; [discriminate H |].
  change (match_here (sep :: chars "node_modules" ++ [sep])%list
            (String d rest1))
    with (existsb (Ascii.eqb d) ["\"%char; "/"%char] &&
          match_here (chars "node_modules" ++ [sep])%list rest1) in H.
  apply andb_true_iff in H as [_ H].
  apply match_here_chars in H as (after & -> & _).
  exists (before ++ String d ""), after.
  rewrite append_assoc. reflexivity.
Qed.

End RegexFacts.

(** No text ends both with [.css] and with [.js]. *)
Lemma css_js_suffixes_differ (a b : string) : a ++ ".css" <> b ++ ".js".
Proof.
  intros H. apply (f_equal list_ascii_of_string) in H.
  rewrite !list_ascii_of_append in H.
  apply (f_equal (@rev ascii)) in H.
  rewrite !rev_app_distr in H. simpl in H. discriminate H.
Qed.

Lemma loaders_for_two_rules cfg (css js : Rule) (resource : string) :
  module_rules cfg = [css; js] ->
  Rules.rule_applies css resource = false ->
  Rules.rule_applies js resource = false ->
  Rules.loaders_for cfg resource = [].
Proof.
  unfold Rules.loaders_for. intros -> Hc Hj. simpl.
  rewrite Hc, Hj. reflexivity.
Qed.

(** X9: in every returned configuration the style rule applies exactly to
    the files whose name ends with [.css], and the script rule, the one of
    [babel-loader], exactly to the files whose name ends with [.js] and has
    no [node_modules] anywhere in it; no file gets both, and a file with
    neither ending gets no loader at all. *)
Theorem loaders_by_extension
    (dir : string) (env argv : JsValue) cfg out (resource : string) :
  run (module_exports dir env argv) = Returned cfg out ->
  exists css js babel_options,
    module_rules cfg = [css; js] /\
    UseString "css-loader" ∈ use css /\
    use js = [UseLoader (LoaderName "babel-loader") babel_options] /\
    (Rules.rule_applies css resource = true <->
     Rules.ends_with resource ".css") /\
    (Rules.rule_applies js resource = true <->
     Rules.ends_with resource ".js" /\
     ~ Rules.contains resource "node_modules") /\
    (Rules.rule_applies css resource = true ->
     Rules.rule_applies js resource = false) /\
    (~ Rules.ends_with resource ".css" ->
     ~ Rules.ends_with resource ".js" ->
     Rules.loaders_for cfg resource = []).
Proof.
  intros Hcfg.
  destruct (returned_is_literal _ _ _ _ _ Hcfg) as (b & v & ->).
  eexists _, _, _. split; [reflexivity |].
  split; [apply list_elem_of_In; right; left; reflexivity |].
  split; [reflexivity |].
  assert (forall b',
    Rules.rule_applies
      {| rule_test := (Regex.chars ".css" ++ [Regex.End_])%list;
         exclude := None;
         use := [UseLoader MiniCssExtractPlugin_loader
                   (MiniCssLoaderOptions b' true);
                 UseString "css-loader"] |} resource = true <->
    Rules.ends_with resource ".css") as Hcss.
  { intros b'. unfold Rules.rule_applies. cbn [rule_test exclude].
    rewrite andb_true_r. apply test_suffix. }
  assert (forall u,
    Rules.rule_applies
      {| rule_test := (Regex.chars ".js" ++ [Regex.End_])%list;
         exclude := Some (Regex.chars "node_modules");
         use := u |} resource = true <->
    Rules.ends_with resource ".js" /\
    ~ Rules.contains resource "node_modules") as Hjs.
  { intros u. unfold Rules.rule_applies. cbn [rule_test exclude].
    rewrite andb_true_iff, negb_true_iff, test_suffix,
      <- not_true_iff_false, test_substring. reflexivity. }
  split; [apply Hcss |]. split; [apply Hjs |]. split.
  - intros Happ. apply Hcss in Happ as [a ->].
    apply not_true_iff_false. intros Hj.
    apply Hjs in Hj as [[c Hc] _].
    exact (css_js_suffixes_differ a c Hc).
  - intros Hncss Hnjs.
    apply (loaders_for_two_rules (config_literal dir b v) _ _ _ eq_refl);
      apply not_true_iff_false; intros Happ.
    + apply Hcss in Happ. contradiction.
    + apply Hjs in Happ as [Happ _]. contradiction.
Qed.

Lemma loaders_by_extension_witness :
  Rules.loaders_for (config_literal "/app" true JUndefined)
    "/app/data/states.geojson" = [].
Proof.
  destruct (loaders_by_extension "/app" JUndefined
              (JObject [("env", JObject [])])
              (config_literal "/app" true JUndefined)
              ["webpack has no mode defined"]
              "/app/data/states.geojson" eq_refl)
    as (css & js & o & _ & _ & _ & _ & _ & _ & Hnone).
  apply Hnone; intros Hends; apply test_suffix in Hends;
    vm_compute in Hends; discriminate Hends.
Defined.

Lemma loaders_for_without_second cfg (css js : Rule) (resource : string) :
  module_rules cfg = [css; js] ->
  Rules.rule_applies js resource = false ->
  forall u, u ∈ Rules.loaders_for cfg resource -> u ∈ use css.
Proof.
  unfold Rules.loaders_for. intros -> Hj u. simpl. rewrite Hj.
  destruct (Rules.rule_applies css resource); simpl.
  - rewrite app_nil_r. auto.
  - intros H. inversion H.
Qed.

(** X10: a file that the vendor cache group accepts is never given to
    [babel-loader]: the exclusion of the script rule accepts every path the
    vendor test accepts, so the modules of the vendor chunk are bundled as
    they are. *)
Theorem vendor_modules_skip_babel
    (dir : string) (env argv : JsValue) cfg out
    (vendor : CacheGroup) (resource : string) :
  run (module_exports dir env argv) = Returned cfg out ->
  ("vendor", vendor) ∈ cacheGroups (splitChunks (optimization cfg)) ->
  Regex.test (test vendor) resource = true ->
  forall u options,
    u ∈ Rules.loaders_for cfg resource ->
    u <> UseLoader (LoaderName "babel-loader") options.
Proof.
  intros Hcfg Hvendor Htest u options Hu.
  destruct (returned_is_literal _ _ _ _ _ Hcfg) as (b & v & ->).
  cbn [config_literal optimization splitChunks cacheGroups] in Hvendor.
  apply elem_of_cons in Hvendor as [Heq | Hvendor].
  - injection Heq as ->. cbn [test] in Htest.
    apply vendor_test_contains, test_substring in Htest.
    apply (loaders_for_without_second (config_literal dir b v) _ _ _ eq_refl)
      in Hu.
    + cbn [use] in Hu.
      apply elem_of_cons in Hu as [-> | Hu]; [discriminate |].
      apply list_elem_of_singleton in Hu as ->. discriminate.
    + unfold Rules.rule_applies. cbn [rule_test exclude].
      rewrite Htest. apply andb_false_r.
  - apply list_elem_of_singleton in Hvendor. discriminate Hvendor.
Qed.

Lemma vendor_modules_skip_babel_witness :
  UseString "css-loader" <>
  UseLoader (LoaderName "babel-loader") (MiniCssLoaderOptions true true).
Proof.
  apply (vendor_modules_skip_babel "/app" JUndefined
           (JObject [("env", JObject [("NODE_ENV", JString "production")])])
           (config_literal "/app" false (JString "production"))
           ["webpack has no mode defined"]
           {| test := (Regex.sep :: Regex.chars "node_modules" ++
                       [Regex.sep])%list;
              name := "vendors";
              group_chunks := "all";
              enforce := None |}
           "/app/node_modules/leaflet/dist/leaflet.css").
  - reflexivity.
  - simpl. constructor.
  - reflexivity.
  - vm_compute. constructor. constructor.
Defined.

(** ** Names of the artifacts *)

(** X11: the script artifact of a chunk and the style artifact of a chunk
    never have the same file name, in either mode and whatever the names,
    identifiers and hashes of the chunks: one ends with [.js], the other
    with [.css]. *)
Theorem script_and_style_names_differ
    (dir : string) (env argv : JsValue) cfg out
    (r1 r2 : Naming.TemplateRole) (c1 c2 : Naming.ChunkInfo) (f1 f2 : string) :
  run (module_exports dir env argv) = Returned cfg out ->
  Naming.emitted_filename cfg Naming.Script r1 c1 = Some f1 ->
  Naming.emitted_filename cfg Naming.Style r2 c2 = Some f2 ->
  f1 <> f2.
Proof.
  intros Hcfg H1 H2 Heq. subst f2.
  destruct (returned_is_literal _ _ _ _ _ Hcfg) as (b & v & ->).
  destruct r1; [| discriminate H1].
  rewrite filename_templates in H1. injection H1 as <-.
  destruct r2.
  - rewrite filename_templates in H2. injection H2 as H2.
    rewrite <- !append_assoc in H2.
    exact (css_js_suffixes_differ _ _ H2).
  - rewrite style_chunk_template in H2. injection H2 as H2.
    rewrite <- !append_assoc in H2.
    exact (css_js_suffixes_differ _ _ H2).
Qed.

Lemma script_and_style_names_differ_witness :
  "styles.js" <> "styles.css".
Proof.
  apply (script_and_style_names_differ "/app" JUndefined
           (JObject [("env", JObject [])])
           (config_literal "/app" true JUndefined)
           ["webpack has no mode defined"]
           Naming.Filename Naming.Filename
           {| Naming.chunk_name := "styles"; Naming.chunk_id := "1";
              Naming.chunk_contenthash := "0f3a" |}
           {| Naming.chunk_name := "styles"; Naming.chunk_id := "1";
              Naming.chunk_contenthash := "77c1" |});
    reflexivity.
Defined.

(** Two lists cut at the first occurrence of a separator are equal part by
    part. *)
Lemma split_at_separator {A : Type} (x : A) (l1 l2 r1 r2 : list A) :
  ~ In x l1 -> ~ In x l2 ->
  (l1 ++ x :: r1 = l2 ++ x :: r2)%list ->
  l1 = l2 /\ r1 = r2.
Proof.
  revert l2. induction l1 as [| a l1 IH]; intros [| b l2] H1 H2 Heq;
    simpl in *.
  - injection Heq as ->. auto.
  - injection Heq as <- _. tauto.
  - injection Heq as -> _. tauto.
  - injection Heq as -> Heq.
    destruct (IH l2) as [-> ->]; auto.
Qed.

(** A name, a dot and a hash without dots can be read apart. *)
Lemma dotted_name_inj (n1 n2 h1 h2 : string) :
  Rules.dot_free h1 -> Rules.dot_free h2 ->
  n1 ++ "." ++ h1 = n2 ++ "." ++ h2 ->
  n1 = n2 /\ h1 = h2.
Proof.
  unfold Rules.dot_free. intros Hd1 Hd2 Heq.
  apply (f_equal list_ascii_of_string) in Heq.
  rewrite !list_ascii_of_append in Heq. simpl in Heq.
  apply (f_equal (@rev ascii)) in Heq.
  rewrite !rev_app_distr in Heq. simpl in Heq.
  rewrite <- !app_assoc in Heq. simpl in Heq.
  apply split_at_separator in Heq as [Hh Hn];
    try (rewrite <- in_rev; assumption).
  apply (f_equal (@rev ascii)) in Hh, Hn.
  rewrite !rev_involutive in Hh, Hn.
  split.
  - rewrite <- (string_of_list_ascii_of_string n1),
            <- (string_of_list_ascii_of_string n2), Hn. reflexivity.
  - rewrite <- (string_of_list_ascii_of_string h1),
            <- (string_of_list_ascii_of_string h2), Hh. reflexivity.
Qed.

(** X12: two chunks whose artifacts of the same kind are named through
    the [filename] template get the same file name only if they have the
    same logical name, in either mode, when the content hashes hold no dot
    (as hexadecimal digests do): no chunk overwrites the artifact of a
    chunk with another name. *)
Theorem same_filename_same_chunk_name
    (dir : string) (env argv : JsValue) cfg out
    (k : Naming.ArtifactKind) (c1 c2 : Naming.ChunkInfo) (f : string) :
  run (module_exports dir env argv) = Returned cfg out ->
  Rules.dot_free (Naming.chunk_contenthash c1) ->
  Rules.dot_free (Naming.chunk_contenthash c2) ->
  Naming.emitted_filename cfg k Naming.Filename c1 = Some f ->
  Naming.emitted_filename cfg k Naming.Filename c2 = Some f ->
  Naming.chunk_name c1 = Naming.chunk_name c2.
Proof.
  intros Hcfg Hd1 Hd2 H1 H2.
  destruct (returned_is_literal _ _ _ _ _ Hcfg) as (b & v & ->).
  rewrite filename_templates in H1, H2. rewrite <- H2 in H1.
  injection H1 as H1. rewrite <- !append_assoc in H1.
  apply append_inv_tail in H1. destruct b; simpl in H1.
  - rewrite !append_nil_r in H1. exact H1.
  - apply dotted_name_inj in H1 as [Hn _]; assumption.
Qed.

Lemma same_filename_same_chunk_name_witness :
  "vendors" = "vendors".
Proof.
  apply (same_filename_same_chunk_name "/app" JUndefined
           (JObject [("env", JObject [("NODE_ENV", JString "production")])])
           (config_literal "/app" false (JString "production"))
           ["webpack has no mode defined"]
           Naming.Script
           {| Naming.chunk_name := "vendors"; Naming.chunk_id := "1";
              Naming.chunk_contenthash := "0f3a" |}
           {| Naming.chunk_name := "vendors"; Naming.chunk_id := "2";
              Naming.chunk_contenthash := "0f3a" |}
           "vendors.0f3a.js").
  - reflexivity.
  - vm_compute. intros H. decompose [or] H; discriminate || assumption.
  - vm_compute. intros H. decompose [or] H; discriminate || assumption.
  - reflexivity.
  - reflexivity.
Defined.
